(** * computeSales.py: price catalogue, sales aggregation and report

    A shallow embedding of [src/computeSales.py] and the properties of
    its functions [load_json_file], [build_price_catalogue],
    [compute_sales_total], [write_results] and [main].

    Conventions of the embedding.
    - The inputs are the objects [json.load] produces: [None], booleans,
      integers (of 4300 digits at most), floats, text, lists and objects
      with text keys.
    - Text is a string of code points below 256.
    - A float is a binary64 number, with the rounded [+] and [*] of the
      machine, signed zeros, the infinities and [nan]; conversions from
      integers and from decimal text round to the nearest float, ties to
      even.
    - Exceptions are values of [exn]; a statement that raises leaves the
      store as it was when the exception was raised.
    - [print] of an error message is recorded as a structured [message]
      (its kind and the object interpolated in it). *)

From Stdlib Require Import ZArith QArith Qcanon List String Ascii Bool Lia.
From Stdlib Require Import Permutation Sorted DecimalString Floats.
Import ListNotations.

Set Warnings "-register-all,-inexact-float".
Open Scope Z_scope.

(** ** Exceptions and results *)

(** The classes of the exceptions that the program can meet;
    [UnicodeDecodeError] counts as the [ValueError] it is, and
    [PermissionError] or [IsADirectoryError] as [OSError]. *)
Inductive exn : Set :=
| KeyError
| ValueError
| TypeError
| OverflowError
| OSError
| RecursionError.

Definition exn_eqb (a b : exn) : bool :=
  match a, b with
  | KeyError, KeyError | ValueError, ValueError
  | TypeError, TypeError | OverflowError, OverflowError
  | OSError, OSError | RecursionError, RecursionError => true
  | _, _ => false
  end.

Inductive result (A : Type) : Type :=
| Ok (a : A)
| Raise (e : exn).
Arguments Ok {A} a.
Arguments Raise {A} e.

(** ** Exact numbers *)

(** The value of a number, as comparisons and hashing see it: integers
    and floats are compared by their exact values. *)
Module Number.

Inductive t : Set :=
| Fin (q : Qc)
| PInf
| NInf
| NaN.

Definition of_Z (n : Z) : t := Fin (Q2Qc (inject_Z n)).

Definition eq_dec (x y : t) : {x = y} + {x <> y}.
Proof.
  destruct x as [a| | |], y as [b| | |];
    try (left; reflexivity); try (right; discriminate).
  destruct (Qc_eq_dec a b) as [e|n].
  - left; now subst.
  - right; intros H; apply n; now injection H.
Defined.

(** Identity of values: [nan] is the same value as [nan]. *)
Definition same (x y : t) : bool := if eq_dec x y then true else false.

(** [x < y]; every comparison with [nan] is false. *)
Definition ltb (x y : t) : bool :=
  match x, y with
  | NaN, _ | _, NaN => false
  | _, NInf => false
  | NInf, _ => true
  | PInf, _ => false
  | _, PInf => true
  | Fin a, Fin b => match (a ?= b)%Qc with Lt => true | _ => false end
  end.

(** Truncation toward zero of a finite value. *)
Definition trunc (q : Qc) : Z := Z.quot (Qnum q) (Zpos (Qden q)).

End Number.

(** ** Floats *)

Module Float.

Definition t : Set := float.

Definition zero : t := PrimFloat.zero.
Definition PInf : t := infinity.
Definition NInf : t := neg_infinity.
Definition NaN : t := nan.

(** The float nearest to [n / d] (ties to even), for [0 <= n], with the
    sign [neg]: the quotient is taken with more than 64 bits and a sticky
    bit, and rounded once. *)
Definition of_fraction (neg : bool) (n : Z) (d : positive) : t :=
  let s := Z.max 0 (65 + Z.log2 (Zpos d) - Z.log2 n) in
  let num := n * 2 ^ s in
  let m := 2 * (num / Zpos d) + (if num mod Zpos d =? 0 then 0 else 1) in
  SF2Prim (binary_normalize prec emax (if neg then - m else m) (- s - 1) neg).

Definition of_Z (n : Z) : t := of_fraction (n <? 0) (Z.abs n) 1.

Definition of_Q (q : Q) : t :=
  of_fraction (Qnum q <? 0) (Z.abs (Qnum q)) (Qden q).

(** [x + y] and [x * y] on floats. *)
Definition add (x y : t) : t := PrimFloat.add x y.
Definition mul (x y : t) : t := PrimFloat.mul x y.

(** [x < y] and [x == y] on floats; [nan == nan] is false. *)
Definition ltb (x y : t) : bool := PrimFloat.ltb x y.
Definition eqb (x y : t) : bool := PrimFloat.eqb x y.

(** Identity of floats, bit for bit. *)
Definition same (x y : t) : bool := PrimFloat.Leibniz.eqb x y.

(** The exact value of a float. *)
Definition exact (x : t) : Number.t :=
  match Prim2SF x with
  | S754_zero _ => Number.of_Z 0
  | S754_infinity false => Number.PInf
  | S754_infinity true => Number.NInf
  | S754_nan => Number.NaN
  | S754_finite s m e =>
      let n := if s then Zneg m else Zpos m in
      Number.Fin (Q2Qc (if 0 <=? e then inject_Z (n * 2 ^ e)
                        else Qmake n (Z.to_pos (2 ^ (- e)))))
  end.

(** Magnitudes from this bound on round to infinity in binary64. *)
Definition overflow_bound : Z := 2 ^ 1024 - 2 ^ 970.

(** Conversion of an integer operand ([float(n)], and [n] as an operand
    of [*] with a float): [OverflowError] outside the float range. *)
Definition of_int (n : Z) : result t :=
  if Z.abs n <? overflow_bound then Ok (of_Z n) else Raise OverflowError.

(** [int(x)] for a float [x]. *)
Definition to_int (x : t) : result Z :=
  match exact x with
  | Number.Fin q => Ok (Number.trunc q)
  | Number.PInf | Number.NInf => Raise OverflowError
  | Number.NaN => Raise ValueError
  end.

(** [x * n] for a float [x] and an integer [n]. *)
Definition mul_int (x : t) (n : Z) : result t :=
  match of_int n with
  | Ok y => Ok (mul x y)
  | Raise e => Raise e
  end.

End Float.

(** ** Text and the conversions [int(str)] and [float(str)] *)

Module Text.

Definition code (c : ascii) : N := N_of_ascii c.

(** [str.isspace] on code points below 256. *)
Definition is_space (c : ascii) : bool :=
  let n := code c in
  ((9 <=? n) && (n <=? 13) || (28 <=? n) && (n <=? 32)
   || (n =? 133) || (n =? 160))%N.

(** The blanks that [int()] and [float()] accept around a number: tab to
    carriage return, the space, and the two spaces above 127. *)
Definition is_blank (c : ascii) : bool :=
  let n := code c in
  ((9 <=? n) && (n <=? 13) || (n =? 32) || (n =? 133) || (n =? 160))%N.

Definition is_digit (c : ascii) : bool :=
  let n := code c in ((48 <=? n) && (n <=? 57))%N.

Definition digit_value (c : ascii) : Z := Z.of_N (code c) - 48.

Definition is_underscore (c : ascii) : bool := (code c =? 95)%N.

Fixpoint drop_while (f : ascii -> bool) (cs : list ascii) : list ascii :=
  match cs with
  | c :: cs' => if f c then drop_while f cs' else cs
  | [] => []
  end.

(** [str.strip()]. *)
Definition strip (cs : list ascii) : list ascii :=
  rev (drop_while is_space (rev (drop_while is_space cs))).

(** The text of a number without the blanks around it. *)
Definition trim (cs : list ascii) : list ascii :=
  rev (drop_while is_blank (rev (drop_while is_blank cs))).

(** An underscore is accepted only between two digits. *)
Fixpoint underscores_ok (prev : ascii) (cs : list ascii) : bool :=
  match cs with
  | [] => negb (is_underscore prev)
  | c :: cs' =>
      (if is_underscore c then is_digit prev
       else if is_underscore prev then is_digit c else true)
      && underscores_ok c cs'
  end.

Definition drop_underscores (cs : list ascii) : list ascii :=
  filter (fun c => negb (is_underscore c)) cs.

(** Optional sign: [(negative, rest)]. *)
Definition split_sign (cs : list ascii) : bool * list ascii :=
  match cs with
  | c :: cs' =>
      if (code c =? 45)%N then (true, cs')
      else if (code c =? 43)%N then (false, cs')
      else (false, cs)
  | [] => (false, [])
  end.

(** Longest prefix of digits and what follows it. *)
Fixpoint span_digits (cs : list ascii) : list ascii * list ascii :=
  match cs with
  | c :: cs' =>
      if is_digit c
      then let '(ds, rest) := span_digits cs' in (c :: ds, rest)
      else ([], cs)
  | [] => ([], [])
  end.

Definition digits_value (ds : list ascii) : Z :=
  fold_left (fun acc c => 10 * acc + digit_value c) ds 0.

(** The longest text of digits that [int()] converts (the default
    limit of the interpreter). *)
Definition max_str_digits : nat := 4300.

(** [int(s)] in base 10. *)
Definition to_int (s : string) : result Z :=
  let cs := trim (list_ascii_of_string s) in
  let '(neg, body) := split_sign cs in
  if underscores_ok "000"%char body then
    match span_digits (drop_underscores body) with
    | (d :: ds, []) =>
        if (max_str_digits <? List.length (d :: ds))%nat
        then Raise ValueError
        else
          let n := digits_value (d :: ds) in
          Ok (if neg then - n else n)
    | _ => Raise ValueError
    end
  else Raise ValueError.

Definition lower (c : ascii) : ascii :=
  let n := code c in
  if ((65 <=? n) && (n <=? 90))%N then ascii_of_N (n + 32) else c.

Definition is_word (w : string) (cs : list ascii) : bool :=
  String.eqb (string_of_list_ascii (map lower cs)) w.

(** The exponent part: [e] or [E], an optional sign and one digit at
    least; nothing may follow it. *)
Definition exponent (cs : list ascii) : option Z :=
  match cs with
  | [] => Some 0
  | c :: cs' =>
      if (code (lower c) =? 101)%N then
        let '(neg, body) := split_sign cs' in
        match span_digits body with
        | (d :: ds, []) =>
            let n := digits_value (d :: ds) in
            Some (if neg then - n else n)
        | _ => None
        end
      else None
  end.

(** The rational a decimal literal denotes: digits, an optional point
    and digits, an optional exponent; one digit at least before the
    exponent. *)
Definition decimal (cs : list ascii) : option Q :=
  let '(ip, rest) := span_digits cs in
  let '(fp, rest') :=
    match rest with
    | c :: r => if (code c =? 46)%N then span_digits r else ([], rest)
    | [] => ([], [])
    end in
  match ip ++ fp with
  | [] => None
  | _ :: _ =>
      match exponent rest' with
      | Some e =>
          let m := digits_value (ip ++ fp) in
          let k := e - Z.of_nat (List.length fp) in
          Some (if 0 <=? k then inject_Z (m * 10 ^ k)
                else Qmake m (Z.to_pos (10 ^ (- k))))
      | None => None
      end
  end.

(** A non-negative rational as the float it rounds to, with its sign. *)
Definition round (neg : bool) (q : Q) : float :=
  Float.of_fraction neg (Qnum q) (Qden q).

(** [float(s)]. *)
Definition to_float (s : string) : result float :=
  let cs := trim (list_ascii_of_string s) in
  if underscores_ok "000"%char cs then
    let '(neg, body) := split_sign (drop_underscores cs) in
    if is_word "inf" body || is_word "infinity" body
    then Ok (if neg then Float.NInf else Float.PInf)
    else if is_word "nan" body then Ok Float.NaN
    else match decimal body with
         | Some q => Ok (round neg q)
         | None => Raise ValueError
         end
  else Raise ValueError.

End Text.

(** ** Decoded JSON values *)

(** The hashable values: what can be a key of a dictionary. *)
Inductive Scalar : Type :=
| SNone
| SBool (b : bool)
| SInt (n : Z)
| SFloat (x : float)
| SStr (s : string).

Inductive Value : Type :=
| VScalar (a : Scalar)
| VList (items : list Value)
| VDict (fields : list (string * Value)).

Coercion VScalar : Scalar >-> Value.

(** [hash(v)], as a dictionary needs it: lists and objects are
    unhashable. *)
Definition hashable (v : Value) : result Scalar :=
  match v with
  | VScalar a => Ok a
  | VList _ | VDict _ => Raise TypeError
  end.

Fixpoint field (name : string) (fields : list (string * Value)) : option Value :=
  match fields with
  | (k, v) :: rest => if String.eqb k name then Some v else field name rest
  | [] => None
  end.

(** [v[name]] for a text subscript [name]: only an object has text
    keys. *)
Definition subscript (v : Value) (name : string) : result Value :=
  match v with
  | VDict fields =>
      match field name fields with
      | Some x => Ok x
      | None => Raise KeyError
      end
  | _ => Raise TypeError
  end.

(** [int(v)]. *)
Definition py_int (v : Value) : result Z :=
  match v with
  | VScalar (SBool b) => Ok (if b then 1 else 0)
  | VScalar (SInt n) => Ok n
  | VScalar (SFloat x) => Float.to_int x
  | VScalar (SStr s) => Text.to_int s
  | _ => Raise TypeError
  end.

(** [float(v)]. *)
Definition py_float (v : Value) : result float :=
  match v with
  | VScalar (SBool b) => Ok (Float.of_Z (if b then 1 else 0))
  | VScalar (SInt n) => Float.of_int n
  | VScalar (SFloat x) => Ok x
  | VScalar (SStr s) => Text.to_float s
  | _ => Raise TypeError
  end.

(** ** Dictionaries *)

(** The number a key stands for: [True], [1] and [1.0] are one key. *)
Definition numeric (a : Scalar) : option Number.t :=
  match a with
  | SBool b => Some (Number.of_Z (if b then 1 else 0))
  | SInt n => Some (Number.of_Z n)
  | SFloat x => Some (Float.exact x)
  | SNone | SStr _ => None
  end.

(** Equality of keys.  The decoder returns one [nan] object, which a
    dictionary finds again by identity. *)
Definition key_eqb (a b : Scalar) : bool :=
  match a, b with
  | SNone, SNone => true
  | SStr s, SStr t => String.eqb s t
  | _, _ =>
      match numeric a, numeric b with
      | Some x, Some y => Number.same x y
      | _, _ => false
      end
  end.

(** Two keys are equal when they have the same normal form. *)
Definition key_norm (a : Scalar) : option (Number.t + string) :=
  match a with
  | SNone => None
  | SStr s => Some (inr s)
  | SBool b => Some (inl (Number.of_Z (if b then 1 else 0)))
  | SInt n => Some (inl (Number.of_Z n))
  | SFloat x => Some (inl (Float.exact x))
  end.

(** A dictionary with float values, in insertion order. *)
Definition dict : Type := list (Scalar * float).

Fixpoint dict_get (d : dict) (k : Scalar) : option float :=
  match d with
  | (k', v) :: rest => if key_eqb k' k then Some v else dict_get rest k
  | [] => None
  end.

Definition dict_mem (d : dict) (k : Scalar) : bool :=
  match dict_get d k with Some _ => true | None => false end.

(** [d[k] = v]: an existing entry keeps its key object and its place. *)
Fixpoint dict_set (d : dict) (k : Scalar) (v : float) : dict :=
  match d with
  | (k', v') :: rest =>
      if key_eqb k' k then (k', v) :: rest else (k', v') :: dict_set rest k v
  | [] => [(k, v)]
  end.

Definition keys (d : dict) : list Scalar := map fst d.

(** The keys of a dictionary are pairwise different. *)
Fixpoint distinct_keys (d : dict) : bool :=
  match d with
  | (k, _) :: rest => negb (dict_mem rest k) && distinct_keys rest
  | [] => true
  end.

(** ** Store, and the monad of statements *)

Inductive message : Type :=
| InvalidProductEntry (product : Value)
| ProductNotFound (product_name : Value)
| InvalidSalesRecord (record : Value).

Record store : Type := Store {
  catalogue : dict;
  sale_totals : dict;
  grand_total : float;
  stdout : list message
}.

(** A statement runs in a state and leaves a state, with a value or an
    exception. *)
Definition M (S A : Type) : Type := S -> S * result A.

Definition ret {S A} (a : A) : M S A := fun s => (s, Ok a).

Definition bind {S A B} (m : M S A) (f : A -> M S B) : M S B :=
  fun s =>
    match m s with
    | (s', Ok a) => f a s'
    | (s', Raise e) => (s', Raise e)
    end.

(** An expression that may raise. *)
Definition eval {S A} (r : result A) : M S A := fun s => (s, r).

Definition get {S} : M S S := fun s => (s, Ok s).
Definition modify {S} (f : S -> S) : M S unit := fun s => (f s, Ok tt).

Declare Scope stmt_scope.
Delimit Scope stmt_scope with stmt.
Notation "x <- m ;; k" := (bind m (fun x => k))
  (at level 61, m at next level, right associativity) : stmt_scope.
Notation "m ;; k" := (bind m (fun _ => k))
  (at level 61, right associativity) : stmt_scope.

(** [try: body except (e1, e2, ...): handler]. *)
Definition try_except {S} (body : M S unit) (caught : list exn)
    (handler : M S unit) : M S unit :=
  fun s =>
    match body s with
    | (s', Ok tt) => (s', Ok tt)
    | (s', Raise e) =>
        if existsb (exn_eqb e) caught then handler s' else (s', Raise e)
    end.

(** [for x in xs: body x]; an exception leaves the loop. *)
Fixpoint for_each {S A} (xs : list A) (body : A -> M S unit) : M S unit :=
  match xs with
  | [] => ret tt
  | x :: rest => bind (body x) (fun _ => for_each rest body)
  end.

Definition print (m : message) : M store unit :=
  modify (fun s => Store (catalogue s) (sale_totals s) (grand_total s)
                         (stdout s ++ [m])).

Definition set_catalogue (d : dict) : M store unit :=
  modify (fun s => Store d (sale_totals s) (grand_total s) (stdout s)).

Definition set_sale_totals (d : dict) : M store unit :=
  modify (fun s => Store (catalogue s) d (grand_total s) (stdout s)).

Definition set_grand_total (x : float) : M store unit :=
  modify (fun s => Store (catalogue s) (sale_totals s) x (stdout s)).

(** [k in d] and [k not in d] hash the key first. *)
Definition contains (d : dict) (v : Value) : result bool :=
  match hashable v with
  | Ok k => Ok (dict_mem d k)
  | Raise e => Raise e
  end.

(** [d[v]] as an expression. *)
Definition getitem (d : dict) (v : Value) : result float :=
  match hashable v with
  | Ok k =>
      match dict_get d k with
      | Some x => Ok x
      | None => Raise KeyError
      end
  | Raise e => Raise e
  end.

(** [d[v] = x] as a dictionary transformer. *)
Definition setitem (d : dict) (v : Value) (x : float) : result dict :=
  match hashable v with
  | Ok k => Ok (dict_set d k x)
  | Raise e => Raise e
  end.

(** ** [build_price_catalogue] *)

Open Scope stmt_scope.
Open Scope string_scope.
Open Scope list_scope.
Open Scope Z_scope.

(** The body of the loop of [build_price_catalogue]. *)
Definition product_entry (product : Value) : M store unit :=
  try_except
    (title <- eval (subscript product "title");;
     p <- eval (subscript product "price");;
     price <- eval (py_float p);;
     s <- get;;
     d <- eval (setitem (catalogue s) title price);;
     set_catalogue d)
    [KeyError; ValueError; TypeError]
    (print (InvalidProductEntry product)).

Definition build_price_catalogue (products : list Value) : M store dict :=
  set_catalogue [];;
  for_each products product_entry;;
  s <- get;;
  ret (catalogue s).

(** ** [compute_sales_total] *)

(** The body of the loop of [compute_sales_total]. *)
Definition sales_record (record : Value) : M store unit :=
  try_except
    (sale_id <- eval (subscript record "SALE_ID");;
     product_name <- eval (subscript record "Product");;
     q <- eval (subscript record "Quantity");;
     quantity <- eval (py_int q);;
     s <- get;;
     found <- eval (contains (catalogue s) product_name);;
     if negb found then print (ProductNotFound product_name)
     else
       price <- eval (getitem (catalogue s) product_name);;
       cost <- eval (Float.mul_int price quantity);;
       s <- get;;
       known <- eval (contains (sale_totals s) sale_id);;
       (if negb known
        then d <- eval (setitem (sale_totals s) sale_id Float.zero);;
             set_sale_totals d
        else ret tt);;
       s <- get;;
       old <- eval (getitem (sale_totals s) sale_id);;
       d <- eval (setitem (sale_totals s) sale_id (Float.add old cost));;
       set_sale_totals d;;
       s <- get;;
       set_grand_total (Float.add (grand_total s) cost))
    [KeyError; ValueError; TypeError]
    (print (InvalidSalesRecord record)).

(** The parameter [catalogue] is the dictionary object of the store; the
    locals [sale_totals] and [grand_total] start afresh at each call. *)
Definition compute_sales_total (sales : list Value) (catalogue : dict)
  : M store (dict * float) :=
  set_catalogue catalogue;;
  set_sale_totals [];;
  set_grand_total Float.zero;;
  for_each sales sales_record;;
  s <- get;;
  ret (sale_totals s, grand_total s).

(** A store to start from: nothing bound, nothing printed. *)
Definition fresh : store := Store [] [] Float.zero [].

(** ** Notions the properties are stated with *)

(** The subtotal of a sale identifier, [0.0] when it has none yet. *)
Definition subtotal (d : dict) (k : Scalar) : float :=
  match dict_get d k with Some x => x | None => Float.zero end.

(** [sum(d[k] for k in d)]: the subtotals added one after the other,
    from 0. *)
Definition sum_over_keys (d : dict) : float :=
  fold_left (fun acc k => Float.add acc (subtotal d k)) (keys d) Float.zero.

(** What a product record contributes when it is valid: its title as a
    key and its price as a float. *)
Definition product_fields (product : Value) : option (Scalar * float) :=
  match subscript product "title", subscript product "price" with
  | Ok title, Ok p =>
      match py_float p, hashable title with
      | Ok price, Ok k => Some (k, price)
      | _, _ => None
      end
  | _, _ => None
  end.

Fixpoint valid_entries (products : list Value) : list (Scalar * float) :=
  match products with
  | [] => []
  | p :: rest =>
      match product_fields p with
      | Some e => e :: valid_entries rest
      | None => valid_entries rest
      end
  end.

(** A non-negative real number. *)
Definition nonneg_real (x : float) : bool :=
  match Float.exact x with
  | Number.Fin q => match (q ?= Q2Qc 0)%Qc with Lt => false | _ => true end
  | _ => false
  end.

Definition negative (x : float) : bool := Float.ltb x Float.zero.

(** Constructors of records, as the decoder builds them. *)
Definition text (s : string) : Value := VScalar (SStr s).
Definition int (n : Z) : Value := VScalar (SInt n).
Definition number (q : Q) : Value := VScalar (SFloat (Float.of_Q q)).

Definition sale (sale_id product quantity : Value) : Value :=
  VDict [("SALE_ID", sale_id); ("Product", product); ("Quantity", quantity)].

Definition product (title price : Value) : Value :=
  VDict [("title", title); ("price", price)].

(** The store after an error message was printed. *)
Definition with_message (s : store) (m : message) : store :=
  Store (catalogue s) (sale_totals s) (grand_total s) (stdout s ++ [m]).

(** The store after [cost] was added for the sale identifier [k]. *)
Definition add_sale (s : store) (k : Scalar) (cost : float) : store :=
  Store (catalogue s)
        (dict_set (sale_totals s) k (Float.add (subtotal (sale_totals s) k) cost))
        (Float.add (grand_total s) cost)
        (stdout s).

(** The store after [title -> price] was written in the catalogue. *)
Definition add_product (s : store) (k : Scalar) (price : float) : store :=
  Store (dict_set (catalogue s) k price) (sale_totals s) (grand_total s)
        (stdout s).

(** The catalogue obtained by writing the entries in order. *)
Definition write_all (d : dict) (entries : list (Scalar * float)) : dict :=
  fold_left (fun acc e => dict_set acc (fst e) (snd e)) entries d.

(** The catalogue data of a store: all of it but what was printed. *)
Definition data (s : store) : dict * dict * float :=
  (catalogue s, sale_totals s, grand_total s).

(** ** [write_results] *)

(** [a < b] on keys: numbers compare by value, text by code points; any
    other pair is not ordered. *)
Definition py_lt (a b : Scalar) : result bool :=
  match a, b with
  | SStr s, SStr t => Ok (String.ltb s t)
  | _, _ =>
      match numeric a, numeric b with
      | Some x, Some y => Ok (Number.ltb x y)
      | _, _ => Raise TypeError
      end
  end.

(** One step of a stable sort by [<]: [x] goes before the first element
    it is smaller than. *)
Fixpoint insert (x : Scalar) (ys : list Scalar) : result (list Scalar) :=
  match ys with
  | [] => Ok [x]
  | y :: rest =>
      match py_lt x y with
      | Ok true => Ok (x :: ys)
      | Ok false =>
          match insert x rest with
          | Ok r => Ok (y :: r)
          | Raise e => Raise e
          end
      | Raise e => Raise e
      end
  end.

(** [sorted(xs)]: a stable sort that only uses [<] and raises what [<]
    raises.  When [<] orders the elements (text, or numbers without
    [nan]) every such sort returns this list, and when the elements are
    of two kinds every such sort raises [TypeError]; with a [nan] among
    numbers the order that Python gives depends on its algorithm and is
    not the order of this definition. *)
Definition sorted (xs : list Scalar) : result (list Scalar) :=
  fold_left (fun acc x =>
               match acc with
               | Ok ys => insert x ys
               | Raise e => Raise e
               end) xs (Ok []).

Definition nl : string := String (ascii_of_nat 10) EmptyString.

Fixpoint repeat_string (s : string) (n : nat) : string :=
  match n with
  | O => ""
  | S n' => (s ++ repeat_string s n')%string
  end.

(** The integer nearest to [n / d], ties to the even one ([0 <= n],
    [0 < d]). *)
Definition round_half_even (n d : Z) : Z :=
  let q := n / d in
  let r := n mod d in
  if 2 * r <? d then q
  else if d <? 2 * r then q + 1
  else if Z.even q then q else q + 1.

(** [format(x, ".<digits>f")]: the exact value of the float, rounded to
    the decimal digits asked for, with the sign of the float. *)
Definition format_fixed (digits : nat) (x : float) : string :=
  match Float.exact x with
  | Number.NaN => "nan"
  | Number.PInf => "inf"
  | Number.NInf => "-inf"
  | Number.Fin q =>
      let scaled :=
        round_half_even (Z.abs (Qnum q) * 10 ^ Z.of_nat digits)
                        (Zpos (Qden q)) in
      let ds := NilZero.string_of_uint (N.to_uint (Z.to_N scaled)) in
      let ds :=
        (repeat_string "0" (S digits - String.length ds)%nat ++ ds)%string in
      let cut := (String.length ds - digits)%nat in
      let sign := if get_sign x then "-" else "" in
      (sign ++ substring 0 cut ds ++ "." ++ substring cut digits ds)%string
  end.

Definition strip (s : string) : string :=
  string_of_list_ascii (Text.strip (list_ascii_of_string s)).

(** What [write_results] produces: the pieces written to
    [SalesResults.txt] and the arguments of [print], both in order. *)
Record output : Type := Output {
  file : list string;
  console : list string
}.

(** [open("SalesResults.txt", "w")] empties the file; it is taken to
    succeed. *)
Definition open_file : M output unit :=
  modify (fun o => Output [] (console o)).

Definition write (text : string) : M output unit :=
  modify (fun o => Output (file o ++ [text]) (console o)).

Definition print_text (text : string) : M output unit :=
  modify (fun o => Output (file o) (console o ++ [text])).

Section Report.

(** [repr] of a float, the shortest decimal text that reads back as the
    same float; the report is a function of it. *)
Variable repr_float : float -> string.

(** [str(k)] of a key, as an f-string interpolates it. *)
Definition py_str (k : Scalar) : string :=
  match k with
  | SNone => "None"
  | SBool true => "True"
  | SBool false => "False"
  | SInt n => NilZero.string_of_int (Z.to_int n)
  | SFloat x => repr_float x
  | SStr s => s
  end.

Definition header : string :=
  ("SALES SUMMARY" ++ nl ++ repeat_string "-" 30 ++ nl)%string.

Definition report_line (sale_id : Scalar) (total : float) : string :=
  ("Sale ID " ++ py_str sale_id ++ ": $" ++ format_fixed 2 total ++ nl)%string.

Definition footer (grand_total elapsed_time : float) : string :=
  (repeat_string "-" 30 ++ nl
   ++ "TOTAL SALES: $" ++ format_fixed 2 grand_total ++ nl
   ++ "Execution Time: " ++ format_fixed 6 elapsed_time ++ " seconds" ++ nl)%string.

Definition write_results (sale_totals : dict) (grand_total elapsed_time : float)
  : M output unit :=
  open_file;;
  print_text header;;
  write header;;
  ids <- eval (sorted (keys sale_totals));;
  for_each ids (fun sale_id =>
    total <- eval (getitem sale_totals (VScalar sale_id));;
    let line := report_line sale_id total in
    print_text (strip line);;
    write line);;
  print_text (footer grand_total elapsed_time);;
  write (footer grand_total elapsed_time).

End Report.

(** Keys that [<] orders: text with text, numbers with numbers. *)
Definition is_text (k : Scalar) : bool :=
  match k with SStr _ => true | _ => false end.

Definition is_number (k : Scalar) : bool :=
  match numeric k with
  | Some Number.NaN | None => false
  | Some _ => true
  end.

(** Pairwise different keys, as a list. *)
Inductive Distinct : list Scalar -> Prop :=
| Distinct_nil : Distinct []
| Distinct_cons k ks :
    Forall (fun k' => key_eqb k k' = false) ks -> Distinct ks ->
    Distinct (k :: ks).

Definition ascending (a b : Scalar) : Prop := py_lt a b = Ok true.
Definition not_descending (a b : Scalar) : Prop := py_lt b a = Ok false.

(** [repr] on the floats the sample inputs use as keys, which have one
    decimal digit. *)
Definition repr_one_decimal (x : float) : string := format_fixed 1 x.

Definition mixed_totals : dict :=
  [(SInt 1, Float.of_Z 10); (SStr "A7", Float.of_Z 5)].

Definition number_totals : dict :=
  [(SInt 10, Float.of_Q (2675 # 1000));
   (SFloat (Float.of_Q (3 # 2)), Float.of_Q (5 # 1000));
   (SBool true, Float.of_Q (1 # 8))].

(** The header and the footer of a report with a grand total of 2.81 and
    an elapsed time of 0.125 seconds, character by character. *)
Definition header_text : string :=
  ("SALES SUMMARY" ++ nl ++ "------------------------------" ++ nl)%string.

Definition footer_text (grand_total : string) : string :=
  ("------------------------------" ++ nl
   ++ "TOTAL SALES: $" ++ grand_total ++ nl
   ++ "Execution Time: 0.125000 seconds" ++ nl)%string.

(** ** Sample inputs *)

Definition widget_products : list Value :=
  [product (text "Widget") (text "2.50")].

Definition widget_catalogue : dict := [(SStr "Widget", Float.of_Q (5 # 2))].

Definition widget_store : store := Store widget_catalogue [] Float.zero [].

Definition sale_with_list_id : Value :=
  sale (VList [int 1]) (text "Widget") (int 2).

Definition sale_with_infinite_quantity : Value :=
  sale (int 1) (text "Widget") (VScalar (SFloat Float.PInf)).

Definition sale_of_gadget : Value := sale (int 2) (text "Gadget") (int 1).

Definition returned_widgets : list Value :=
  [sale (int 1) (text "Widget") (int (-4))].

Definition negative_products : list Value :=
  [product (text "Widget") (int (-1))].

Definition repriced_products : list Value :=
  [product (text "A") (text "1.5"); product (text "B") (int 2);
   VDict [("title", text "A")]; product (text "A") (text "3");
   product (text "C") (text "free")].

(** ** The two loops as functions of the records *)

(** What a sale record contributes when it is valid and its product is
    catalogued: its identifier as a key, and its cost. *)
Definition sale_fields (cat : dict) (record : Value) : option (Scalar * float) :=
  match subscript record "SALE_ID", subscript record "Product",
        subscript record "Quantity" with
  | Ok sale_id, Ok product_name, Ok q =>
      match py_int q with
      | Ok quantity =>
          match getitem cat product_name with
          | Ok price =>
              match Float.mul_int price quantity, hashable sale_id with
              | Ok cost, Ok k => Some (k, cost)
              | _, _ => None
              end
          | Raise _ => None
          end
      | Raise _ => None
      end
  | _, _, _ => None
  end.

(** The records on which the loop of [compute_sales_total] raises
    [OverflowError]: the three fields are present and either [int()] of the
    quantity overflows, or the product is catalogued and the quantity is
    outside the float range. *)
Definition sale_overflows (cat : dict) (record : Value) : bool :=
  match subscript record "SALE_ID", subscript record "Product",
        subscript record "Quantity" with
  | Ok _, Ok product_name, Ok q =>
      match py_int q with
      | Ok quantity =>
          match getitem cat product_name with
          | Ok price =>
              match Float.mul_int price quantity with
              | Ok _ => false
              | Raise _ => true
              end
          | Raise _ => false
          end
      | Raise OverflowError => true
      | Raise _ => false
      end
  | _, _, _ => false
  end.

(** The message printed for a record that contributes nothing. *)
Definition sale_message (cat : dict) (record : Value) : message :=
  match subscript record "SALE_ID", subscript record "Product",
        subscript record "Quantity" with
  | Ok _, Ok product_name, Ok q =>
      match py_int q, contains cat product_name with
      | Ok _, Ok false => ProductNotFound product_name
      | _, _ => InvalidSalesRecord record
      end
  | _, _, _ => InvalidSalesRecord record
  end.

Fixpoint sale_entries (cat : dict) (sales : list Value)
  : list (Scalar * float) :=
  match sales with
  | [] => []
  | r :: rest =>
      match sale_fields cat r with
      | Some e => e :: sale_entries cat rest
      | None => sale_entries cat rest
      end
  end.

Fixpoint sale_messages (cat : dict) (sales : list Value) : list message :=
  match sales with
  | [] => []
  | r :: rest =>
      match sale_fields cat r with
      | Some _ => sale_messages cat rest
      | None => sale_message cat r :: sale_messages cat rest
      end
  end.

(** The records that come before the first one on which [stops] holds. *)
Fixpoint before {A} (stops : A -> bool) (xs : list A) : list A :=
  match xs with
  | [] => []
  | x :: rest => if stops x then [] else x :: before stops rest
  end.

(** One cost added to a per-sale mapping and a grand total. *)
Definition add_entry (acc : dict * float) (e : Scalar * float) : dict * float :=
  (dict_set (fst acc) (fst e) (Float.add (subtotal (fst acc) (fst e)) (snd e)),
   Float.add (snd acc) (snd e)).

Definition accumulate (acc : dict * float) (entries : list (Scalar * float))
  : dict * float :=
  fold_left add_entry entries acc.

(** The floats [xs] added to [x] one after the other, each addition
    rounding; and their sum from 0.0. *)
Definition add_all (x : float) (xs : list float) : float :=
  fold_left Float.add xs x.

Definition total (xs : list float) : float := add_all Float.zero xs.

(** The value of a finite float, and 0 for the others. *)
Definition value (x : float) : Qc :=
  match Float.exact x with
  | Number.Fin q => q
  | _ => Q2Qc 0
  end.

(** [x + y] does not round: [x] and [y] are finite and the float [x + y]
    has the value of their sum. *)
Definition exact_add (x y : float) : bool :=
  match Float.exact x, Float.exact y with
  | Number.Fin a, Number.Fin b =>
      Number.same (Float.exact (Float.add x y)) (Number.Fin (a + b)%Qc)
  | _, _ => false
  end.

(** No addition rounds when the floats [cs] are added to [x] one after
    the other. *)
Fixpoint adds_exactly (x : float) (cs : list float) : bool :=
  match cs with
  | [] => true
  | c :: cs' => exact_add x c && adds_exactly (Float.add x c) cs'
  end.

(** No addition rounds when the entries are accumulated, neither into a
    subtotal nor into the grand total. *)
Fixpoint accumulates_exactly (acc : dict * float)
    (entries : list (Scalar * float)) : bool :=
  match entries with
  | [] => true
  | e :: rest =>
      exact_add (subtotal (fst acc) (fst e)) (snd e)
      && exact_add (snd acc) (snd e)
      && accumulates_exactly (add_entry acc e) rest
  end.

(** The sum of the values of floats, as a rational number. *)
Definition sum_of_values (cs : list float) : Qc :=
  fold_right (fun c acc => (value c + acc)%Qc) (Q2Qc 0) cs.

Definition has_key (k : Scalar) (entries : list (Scalar * float)) : bool :=
  existsb (fun e => key_eqb (fst e) k) entries.

(** The costs of the entries whose key is [k]. *)
Definition costs_for (k : Scalar) (entries : list (Scalar * float))
  : list float :=
  map snd (filter (fun e => key_eqb (fst e) k) entries).

(** The records on which the loop of [build_price_catalogue] raises
    [OverflowError]: title and price are present and the price is an
    integer outside the float range. *)
Definition product_overflows (product : Value) : bool :=
  match subscript product "title", subscript product "price" with
  | Ok _, Ok p =>
      match py_float p with
      | Raise OverflowError => true
      | _ => false
      end
  | _, _ => false
  end.

Definition is_invalid (product : Value) : bool :=
  match product_fields product with Some _ => false | None => true end.

(** The messages of [build_price_catalogue]: one for each invalid record. *)
Definition product_messages (products : list Value) : list message :=
  map InvalidProductEntry (filter is_invalid products).

Definition is_object (v : Value) : bool :=
  match v with VDict _ => true | _ => false end.

(** The keys in order of first appearance, each in its first spelling. *)
Definition first_keys (seen ks : list Scalar) : list Scalar :=
  fold_left (fun seen k =>
               if existsb (fun k' => key_eqb k' k) seen then seen
               else seen ++ [k]) ks seen.

Definition mixed_sales : list Value :=
  [sale (int 1) (text "Widget") (int 4); sale_of_gadget;
   sale (VScalar (SBool true)) (text "Widget") (text "2");
   sale (text "B2") (text "Widget") (number (3 # 2));
   VList [int 1]; sale (int 7) (text "Widget") (text "many")].

(** The value of the last entry whose key is [k]. *)
Definition last_value (k : Scalar) (entries : list (Scalar * float))
  : option float :=
  fold_left (fun acc e => if key_eqb (fst e) k then Some (snd e) else acc)
            entries None.

Definition overpriced_products : list Value :=
  [product (text "Widget") (text "2.50"); VScalar (SStr "Widget");
   product (VList []) (int 1); product (text "Widget") (int (10 ^ 400));
   product (text "Gadget") (int 1)].

(** The kinds of keys that [<] orders among themselves: text
    ([Some true]) and numbers ([Some false]); [None] has no kind. *)
Definition kind (k : Scalar) : option bool :=
  match k with
  | SStr _ => Some true
  | SNone => None
  | SBool _ | SInt _ | SFloat _ => Some false
  end.

Definition has_kind (c : bool) (k : Scalar) : bool :=
  match kind k with
  | Some c' => Bool.eqb c c'
  | None => false
  end.

(** Keys that a sort can order: fewer than two, or all of one kind. *)
Definition orderable (ks : list Scalar) : bool :=
  match ks with
  | [] | [_] => true
  | k :: rest =>
      match kind k with
      | Some c => forallb (has_kind c) rest
      | None => false
      end
  end.

(** A catalogue with a price large enough for additions to round. *)
Definition large_catalogue : dict :=
  [(SStr "Vault", Float.of_Z (10 ^ 16)); (SStr "Pin", Float.of_Z 1)].

(** A sale, another one, and the first one returned. *)
Definition cancelling_sales : list Value :=
  [sale (int 1) (text "Vault") (int 1); sale (int 2) (text "Pin") (int 1);
   sale (int 1) (text "Vault") (int (-1))].

Definition vault_then_pins : list Value :=
  [sale (int 1) (text "Vault") (int 1); sale (int 1) (text "Pin") (int 1);
   sale (int 1) (text "Pin") (int 1)].

Definition pins_then_vault : list Value :=
  [sale (int 1) (text "Pin") (int 1); sale (int 1) (text "Pin") (int 1);
   sale (int 1) (text "Vault") (int 1)].

Definition sale_without_product : Value :=
  VDict [("SALE_ID", int 5);
         ("Quantity", VScalar (SFloat Float.PInf))].

Definition unknown_with_text_quantity : Value :=
  sale (int 2) (text "Gadget") (text "three").

(** ** [load_json_file] and [main] *)

(** What opening a path and decoding its content gives: no such file
    ([FileNotFoundError]), a content that is not JSON
    ([json.JSONDecodeError]), the decoded value, or any other exception of
    [open] or [json.load]: [OSError] for a directory or a file that may
    not be read, [ValueError] for bytes that are not UTF-8 or an integer
    of more than 4300 digits, [RecursionError] for a nesting too deep. *)
Inductive source : Type :=
| Missing
| Malformed
| Decoded (v : Value)
| Failing (e : exn).

(** What [load_json_file] and [main] print themselves. *)
Inductive notice : Type :=
| Usage
| FileNotFound (file_path : string)
| InvalidJSON (file_path : string).

(** How [main] ends: it returns, [sys.exit] was called, or an exception
    went uncaught. *)
Inductive ending : Type :=
| Returned
| Exited (code : Z)
| Uncaught (e : exn).

(** The state of a run: the notices printed, the store of the two
    aggregation functions and the report.  The three parts are printed in
    that order, one phase after the other. *)
Record process : Type := Process {
  notices : list notice;
  memory : store;
  report : output
}.

(** [for x in v]: a list gives its items, an object its keys, a text its
    characters; nothing else can be iterated.  (A decoded object has no
    repeated key.) *)
Definition py_iter (v : Value) : result (list Value) :=
  match v with
  | VList items => Ok items
  | VDict fields => Ok (map (fun f => text (fst f)) fields)
  | VScalar (SStr s) =>
      Ok (map (fun c => text (String c EmptyString)) (list_ascii_of_string s))
  | VScalar _ => Raise TypeError
  end.

Definition is_none (v : Value) : bool :=
  match v with VScalar SNone => true | _ => false end.

(** [build_price_catalogue] and [compute_sales_total] called, as [main]
    calls them, on whatever was decoded. *)
Definition build_price_catalogue_on (products : Value) : M store dict :=
  set_catalogue [];;
  items <- eval (py_iter products);;
  build_price_catalogue items.

Definition compute_sales_total_on (sales : Value) (catalogue : dict)
  : M store (dict * float) :=
  set_catalogue catalogue;;
  set_sale_totals [];;
  set_grand_total Float.zero;;
  items <- eval (py_iter sales);;
  compute_sales_total items catalogue.

Section Driver.

(** The files of the run, the time it takes and [repr] on floats. *)
Variable files : string -> source.
Variable elapsed_time : float.
Variable repr_float : float -> string.

Definition load_json_file (file_path : string) : M (list notice) Value :=
  match files file_path with
  | Decoded v => ret v
  | Missing =>
      modify (fun ns => ns ++ [FileNotFound file_path]);;
      ret (VScalar SNone)
  | Malformed =>
      modify (fun ns => ns ++ [InvalidJSON file_path]);;
      ret (VScalar SNone)
  | Failing e => eval (Raise e)
  end.

Definition main (argv : list string) (p : process) : process * ending :=
  match argv with
  | [_; product_file; sales_file] =>
      match (products <- load_json_file product_file;;
             sales <- load_json_file sales_file;;
             ret (products, sales)) (notices p) with
      | (ns, Raise e) => (Process ns (memory p) (report p), Uncaught e)
      | (ns, Ok (products, sales)) =>
          if is_none products || is_none sales
          then (Process ns (memory p) (report p), Exited 1)
          else
            match build_price_catalogue_on products (memory p) with
            | (m, Raise e) => (Process ns m (report p), Uncaught e)
            | (m, Ok catalogue) =>
                match compute_sales_total_on sales catalogue m with
                | (m', Raise e) => (Process ns m' (report p), Uncaught e)
                | (m', Ok (sale_totals, grand_total)) =>
                    match write_results repr_float sale_totals grand_total
                            elapsed_time (report p) with
                    | (o, Raise e) => (Process ns m' o, Uncaught e)
                    | (o, Ok _) => (Process ns m' o, Returned)
                    end
                end
            end
      end
  | _ => (Process (notices p ++ [Usage]) (memory p) (report p), Exited 1)
  end.

End Driver.

(** The notice a source causes, if any. *)
Definition notice_of (files : string -> source) (file_path : string)
  : list notice :=
  match files file_path with
  | Missing => [FileNotFound file_path]
  | Malformed => [InvalidJSON file_path]
  | Decoded _ | Failing _ => []
  end.

(** A source for which [load_json_file] returns [None]: absent, not
    JSON, or the JSON value [null]. *)
Definition unusable (src : source) : bool :=
  match src with
  | Decoded v => is_none v
  | Missing | Malformed => true
  | Failing _ => false
  end.

(** The exception that loading a source raises, if any. *)
Definition failure (src : source) : option exn :=
  match src with
  | Failing e => Some e
  | Missing | Malformed | Decoded _ => None
  end.

(** What [load_json_file] returns for a source that does not fail. *)
Definition loaded (src : source) : Value :=
  match src with
  | Decoded v => v
  | Missing | Malformed | Failing _ => VScalar SNone
  end.

Definition sample_sales : list Value :=
  [sale (text "S2") (text "A") (int 2); sale (text "S1") (text "B") (text "3");
   sale (text "S2") (text "C") (int 1)].

Definition sample_files (file_path : string) : source :=
  if String.eqb file_path "products.json"
  then Decoded (VList repriced_products)
  else if String.eqb file_path "sales.json"
  then Decoded (VList sample_sales)
  else if String.eqb file_path "null.json" then Decoded (VScalar SNone)
  else if String.eqb file_path "object.json"
  then Decoded (product (text "Widget") (text "2.50"))
  else if String.eqb file_path "broken.json" then Malformed
  else if String.eqb file_path "latin1.json" then Failing ValueError
  else if String.eqb file_path "folder" then Failing OSError
  else Missing.

(** Prices and sales whose totals are not decimal fractions of a float. *)
Definition precise_products : list Value :=
  [product (text "Bolt") (text "2.675"); product (text "Nut") (number (5 # 1000));
   product (text "Bolt") (VList [])].

Definition precise_sales : list Value :=
  [sale (text "S2") (text "Bolt") (int 1); sale (text "S1") (text "Nut") (text "1");
   sale (text "S2") (text "Washer") (int 1)].

Definition precise_files (file_path : string) : source :=
  if String.eqb file_path "prices.json" then Decoded (VList precise_products)
  else if String.eqb file_path "orders.json" then Decoded (VList precise_sales)
  else Missing.

Definition idle : process := Process [] fresh (Output ["yesterday"] []).

Definition is_list (v : Value) : bool :=
  match v with VList _ => true | _ => false end.

(** * Properties *)

(** ** Numbers and floats *)

Lemma number_same_eq (x y : Number.t) : Number.same x y = true <-> x = y.
Proof.
  unfold Number.same. destruct (Number.eq_dec x y); split; congruence.
Qed.

Lemma float_same_eq (x y : float) : Float.same x y = true <-> x = y.
Proof. apply Leibniz.eqb_spec. Qed.

(** ** Keys *)

Lemma key_eqb_norm (a b : Scalar) :
  key_eqb a b = true <-> key_norm a = key_norm b.
Proof.
  destruct a, b; simpl; try rewrite number_same_eq; try rewrite String.eqb_eq;
    split; intros H; try congruence; try reflexivity.
Qed.

Lemma key_eqb_refl (a : Scalar) : key_eqb a a = true.
Proof. now apply key_eqb_norm. Qed.

Lemma key_eqb_sym (a b : Scalar) : key_eqb a b = key_eqb b a.
Proof.
  destruct (key_eqb a b) eqn:E, (key_eqb b a) eqn:F; try reflexivity.
  - apply key_eqb_norm in E. symmetry in E. apply key_eqb_norm in E. congruence.
  - apply key_eqb_norm in F. symmetry in F. apply key_eqb_norm in F. congruence.
Qed.

Lemma key_eqb_trans (a b c : Scalar) :
  key_eqb a b = true -> key_eqb b c = true -> key_eqb a c = true.
Proof. rewrite !key_eqb_norm. congruence. Qed.

Lemma key_eqb_congr (a b c : Scalar) :
  key_eqb a b = true -> key_eqb a c = key_eqb b c.
Proof.
  intros H. destruct (key_eqb b c) eqn:E.
  - eapply key_eqb_trans; eassumption.
  - destruct (key_eqb a c) eqn:F; try reflexivity.
    rewrite key_eqb_sym in H. rewrite <- E. symmetry.
    eapply key_eqb_trans; eassumption.
Qed.

(** ** Dictionaries *)

Lemma dict_get_set_same (d : dict) k v : dict_get (dict_set d k v) k = Some v.
Proof.
  induction d as [|[k' v'] d IH]; simpl.
  - now rewrite key_eqb_refl.
  - destruct (key_eqb k' k) eqn:E; simpl; rewrite E; auto.
Qed.

Lemma dict_get_set_other (d : dict) k k' v :
  key_eqb k k' = false -> dict_get (dict_set d k v) k' = dict_get d k'.
Proof.
  intros H. induction d as [|[k0 v0] d IH]; simpl.
  - now rewrite H.
  - destruct (key_eqb k0 k) eqn:E; simpl.
    + rewrite (key_eqb_congr _ _ k' E), H. reflexivity.
    + now rewrite IH.
Qed.

Lemma dict_get_congr (d : dict) k k' :
  key_eqb k k' = true -> dict_get d k = dict_get d k'.
Proof.
  intros H. induction d as [|[k0 v0] d IH]; simpl; auto.
  rewrite (key_eqb_sym k0 k), (key_eqb_sym k0 k'), (key_eqb_congr _ _ k0 H).
  now rewrite IH.
Qed.

Lemma dict_set_set (d : dict) k v w :
  dict_set (dict_set d k v) k w = dict_set d k w.
Proof.
  induction d as [|[k' v'] d IH]; simpl.
  - now rewrite key_eqb_refl.
  - destruct (key_eqb k' k) eqn:E; simpl; rewrite E; congruence.
Qed.

Lemma dict_mem_set (d : dict) k k' v :
  dict_mem (dict_set d k v) k' = key_eqb k k' || dict_mem d k'.
Proof.
  unfold dict_mem. destruct (key_eqb k k') eqn:E; simpl.
  - rewrite <- (dict_get_congr _ _ _ E), dict_get_set_same. reflexivity.
  - now rewrite dict_get_set_other.
Qed.

Lemma distinct_keys_set (d : dict) k v :
  distinct_keys d = true -> distinct_keys (dict_set d k v) = true.
Proof.
  induction d as [|[k' v'] d IH]; simpl; auto.
  intros H. apply andb_true_iff in H as [H1 H2].
  destruct (key_eqb k' k) eqn:E; simpl.
  - now rewrite H1, H2.
  - rewrite dict_mem_set, (key_eqb_sym k k'), E. simpl. now rewrite H1, IH.
Qed.

Lemma dict_set_new (d : dict) k v :
  dict_mem d k = false -> dict_set d k v = d ++ [(k, v)].
Proof.
  unfold dict_mem. induction d as [|[k' v'] d IH]; simpl; auto.
  destruct (key_eqb k' k); [discriminate|]. intros H. now rewrite IH.
Qed.

(** ** The loop bodies, case by case *)

Lemma bind_ok {S A B} (m : M S A) (f : A -> M S B) s s' a :
  m s = (s', Ok a) -> bind m f s = f a s'.
Proof. intros H. unfold bind. now rewrite H. Qed.

Ltac run_stmt :=
  unfold try_except, bind, eval, get, ret, print, set_catalogue,
    set_sale_totals, set_grand_total, modify, contains, getitem, setitem;
  simpl.

Lemma getitem_ok (d : dict) v x :
  getitem d v = Ok x <-> exists k, hashable v = Ok k /\ dict_get d k = Some x.
Proof.
  unfold getitem. destruct (hashable v) as [k|e].
  - destruct (dict_get d k) as [y|] eqn:E; split.
    + intros H. exists k. split; congruence.
    + intros (k' & H1 & H2). congruence.
    + discriminate.
    + intros (k' & H1 & H2). congruence.
  - split; [discriminate|]. intros (k' & H1 & _). discriminate.
Qed.

Lemma mul_int_ok (x : float) n :
  Z.abs n < Float.overflow_bound ->
  Float.mul_int x n = Ok (Float.mul x (Float.of_Z n)).
Proof.
  intros H. unfold Float.mul_int, Float.of_int.
  apply Z.ltb_lt in H. now rewrite H.
Qed.

Lemma sales_record_adds record s sale_id product_name q quantity price cost k :
  subscript record "SALE_ID" = Ok sale_id ->
  subscript record "Product" = Ok product_name ->
  subscript record "Quantity" = Ok q ->
  py_int q = Ok quantity ->
  getitem (catalogue s) product_name = Ok price ->
  Float.mul_int price quantity = Ok cost ->
  hashable sale_id = Ok k ->
  sales_record record s = (add_sale s k cost, Ok tt).
Proof.
  intros Hid Hp Hq Hn Hprice Hcost Hk.
  apply getitem_ok in Hprice as (pk & Hpk & Hprice).
  unfold sales_record. run_stmt.
  rewrite Hid, Hp, Hq, Hn, Hpk. unfold dict_mem. rewrite Hprice. simpl.
  rewrite Hcost, Hk. unfold add_sale, subtotal.
  destruct (dict_get (sale_totals s) k) as [old|] eqn:E; simpl.
  - rewrite E. reflexivity.
  - rewrite dict_get_set_same, dict_set_set. reflexivity.
Qed.

Lemma sales_record_unhashable_id record s sale_id product_name q quantity
    price cost :
  subscript record "SALE_ID" = Ok sale_id ->
  subscript record "Product" = Ok product_name ->
  subscript record "Quantity" = Ok q ->
  py_int q = Ok quantity ->
  getitem (catalogue s) product_name = Ok price ->
  Float.mul_int price quantity = Ok cost ->
  hashable sale_id = Raise TypeError ->
  sales_record record s = (with_message s (InvalidSalesRecord record), Ok tt).
Proof.
  intros Hid Hp Hq Hn Hprice Hcost Hk.
  apply getitem_ok in Hprice as (pk & Hpk & Hprice).
  unfold sales_record. run_stmt.
  rewrite Hid, Hp, Hq, Hn, Hpk. unfold dict_mem. rewrite Hprice. simpl.
  rewrite Hcost, Hk. reflexivity.
Qed.

Lemma hashable_raises (v : Value) e : hashable v = Raise e -> e = TypeError.
Proof. destruct v; simpl; congruence. Qed.

Lemma subscript_raises (v : Value) name e :
  subscript v name = Raise e -> e = KeyError \/ e = TypeError.
Proof.
  destruct v; simpl; try (intros H; right; congruence).
  destruct (field name fields); intros H; left; congruence.
Qed.

Lemma py_int_raises (v : Value) e :
  py_int v = Raise e -> e = ValueError \/ e = TypeError \/ e = OverflowError.
Proof.
  destruct v as [[| | |x|s]| |]; simpl; try (intros H; right; left; congruence).
  - unfold Float.to_int. destruct (Float.exact x); intros H; try discriminate;
      [right; right|right; right|left]; congruence.
  - unfold Text.to_int.
    destruct (Text.split_sign _) as [neg body].
    destruct (Text.underscores_ok _ _); [|intros H; left; congruence].
    destruct (Text.span_digits _) as [[|d ds] [|r rs]];
      try (intros H; left; congruence).
    destruct (Text.max_str_digits <? _)%nat; intros H;
      [left; congruence|discriminate].
Qed.

Lemma mul_int_raises (x : float) n e :
  Float.mul_int x n = Raise e -> e = OverflowError.
Proof.
  unfold Float.mul_int, Float.of_int.
  destruct (Z.abs n <? Float.overflow_bound); congruence.
Qed.

(** What one record does to the store: it prints one message, or it adds
    one cost, or it raises [OverflowError] and changes nothing.  Which of
    the three, and with what message or cost, depends on the record and
    on the catalogue only. *)
Lemma sales_record_cases record cat :
  (exists m, forall t g o,
      sales_record record (Store cat t g o)
      = (with_message (Store cat t g o) m, Ok tt))
  \/ (exists k cost, forall t g o,
      sales_record record (Store cat t g o)
      = (add_sale (Store cat t g o) k cost, Ok tt))
  \/ (forall t g o,
      sales_record record (Store cat t g o)
      = (Store cat t g o, Raise OverflowError)).
Proof.
  destruct (subscript record "SALE_ID") as [sale_id|e] eqn:Hid.
  2:{ left. exists (InvalidSalesRecord record). intros.
      unfold sales_record. run_stmt.
      rewrite Hid. destruct (subscript_raises _ _ _ Hid); subst; reflexivity. }
  destruct (subscript record "Product") as [product_name|e] eqn:Hp.
  2:{ left. exists (InvalidSalesRecord record). intros.
      unfold sales_record. run_stmt.
      rewrite Hid, Hp.
      destruct (subscript_raises _ _ _ Hp); subst; reflexivity. }
  destruct (subscript record "Quantity") as [q|e] eqn:Hq.
  2:{ left. exists (InvalidSalesRecord record). intros.
      unfold sales_record. run_stmt.
      rewrite Hid, Hp, Hq.
      destruct (subscript_raises _ _ _ Hq); subst; reflexivity. }
  destruct (py_int q) as [quantity|e] eqn:Hn.
  2:{ destruct (py_int_raises _ _ Hn) as [->|[->| ->]];
        [left; exists (InvalidSalesRecord record)
        |left; exists (InvalidSalesRecord record)|right; right];
        intros; unfold sales_record; run_stmt;
        rewrite Hid, Hp, Hq, Hn; reflexivity. }
  destruct (hashable product_name) as [pk|e] eqn:Hpk.
  2:{ left. exists (InvalidSalesRecord record). intros.
      unfold sales_record. run_stmt.
      rewrite Hid, Hp, Hq, Hn, Hpk. rewrite (hashable_raises _ _ Hpk).
      reflexivity. }
  destruct (dict_get cat pk) as [price|] eqn:Hprice.
  2:{ left. exists (ProductNotFound product_name). intros.
      unfold sales_record. run_stmt.
      rewrite Hid, Hp, Hq, Hn, Hpk. unfold dict_mem.
      rewrite Hprice. reflexivity. }
  assert (Hget : forall t g o,
             getitem (catalogue (Store cat t g o)) product_name = Ok price).
  { intros. apply getitem_ok. exists pk. auto. }
  destruct (Float.mul_int price quantity) as [cost|e] eqn:Hcost.
  2:{ right; right. intros. unfold sales_record. run_stmt.
      rewrite Hid, Hp, Hq, Hn, Hpk. unfold dict_mem. rewrite Hprice. simpl.
      rewrite Hcost, (mul_int_raises _ _ _ Hcost). reflexivity. }
  destruct (hashable sale_id) as [k|e] eqn:Hk.
  - right; left. exists k, cost. intros.
    eapply sales_record_adds; eauto.
  - left. exists (InvalidSalesRecord record). intros.
    rewrite (hashable_raises _ _ Hk) in Hk.
    eapply sales_record_unhashable_id; eauto.
Qed.

Lemma dict_mem_false_keys (d : dict) k :
  dict_mem d k = false -> Forall (fun k' => key_eqb k k' = false) (keys d).
Proof.
  unfold dict_mem. induction d as [|[k' v'] d IH]; simpl; intros H.
  - constructor.
  - destruct (key_eqb k' k) eqn:E; [discriminate|].
    constructor; [now rewrite key_eqb_sym | auto].
Qed.

(** ** The loop of [compute_sales_total] *)

(** The loop keeps the catalogue, keeps the keys of [sale_totals]
    distinct, and can only end normally or with [OverflowError]. *)
Lemma sales_loop_invariant sales : forall s s' r,
  for_each sales sales_record s = (s', r) ->
  catalogue s' = catalogue s
  /\ (distinct_keys (sale_totals s) = true ->
      distinct_keys (sale_totals s') = true)
  /\ (r = Ok tt \/ r = Raise OverflowError).
Proof.
  induction sales as [|record sales IH]; intros s s' r H.
  - inversion H; subst. auto.
  - simpl in H. unfold bind in H. destruct s as [c t g o].
    destruct (sales_record_cases record c) as [[m E]|[[k [cost E]]|E]];
      rewrite E in H.
    + apply IH in H as (Hc & Hd & Hr). simpl in *. auto.
    + apply IH in H as (Hc & Hd & Hr). simpl in *.
      repeat split; auto.
      intros D. apply Hd. now apply distinct_keys_set.
    + inversion H; subst. auto.
Qed.

Lemma compute_sales_total_loop sales cat s :
  compute_sales_total sales cat s =
  match for_each sales sales_record
          (Store cat [] Float.zero (stdout s)) with
  | (s', Ok _) => (s', Ok (sale_totals s', grand_total s'))
  | (s', Raise e) => (s', Raise e)
  end.
Proof.
  unfold compute_sales_total. run_stmt.
  destruct (for_each _ _ _) as [s' [[]|e]]; reflexivity.
Qed.

(** ** Facts closed by evaluation *)

Lemma float_same_neq (x y : float) : Float.same x y = false -> x <> y.
Proof. intros H E. apply float_same_eq in E. congruence. Qed.

(** The blanks around a number are the tab, the line breaks and the
    spaces, not the separators U+001C to U+001F that [str.strip] removes;
    a text of more than 4300 digits is refused; decimal text rounds to
    the nearest float. *)
Lemma conversions_of_text :
  py_int (text (String (ascii_of_nat 9) " 42 ")) = Ok 42
  /\ py_int (text (String (ascii_of_nat 160) "42")) = Ok 42
  /\ py_int (text (String (ascii_of_nat 31) "7")) = Raise ValueError
  /\ py_float (text (String (ascii_of_nat 31) "2")) = Raise ValueError
  /\ py_int (text (repeat_string "9" 4300)) = Ok (10 ^ 4300 - 1)
  /\ py_int (text (repeat_string "9" 4301)) = Raise ValueError
  /\ py_float (text (repeat_string "9" 4301)) = Ok Float.PInf
  /\ py_float (text "0.1") = Ok 0.1%float
  /\ py_float (text " -1_0.5e-1 ") = Ok (-1.05)%float
  /\ py_float (text "1e400") = Ok Float.PInf
  /\ py_float (int (2 ^ 53 + 1)) = Ok 9007199254740992%float
  /\ py_float (int (10 ^ 400)) = Raise OverflowError
  /\ py_int (VScalar (SFloat 1e22%float)) = Ok (10 ^ 22)
  /\ strip (String (ascii_of_nat 31) " a ") = "a".
Proof. repeat (split; [vm_compute; reflexivity|]). vm_compute. reflexivity. Qed.

Lemma subscript_sale_id a b c : subscript (sale a b c) "SALE_ID" = Ok a.
Proof. reflexivity. Qed.

Lemma subscript_sale_product a b c : subscript (sale a b c) "Product" = Ok b.
Proof. reflexivity. Qed.

Lemma subscript_sale_quantity a b c : subscript (sale a b c) "Quantity" = Ok c.
Proof. reflexivity. Qed.

(** ** A valid sale is added *)

(** [C1] (amended) For every sale record whose [SALE_ID], [Product] and
    [Quantity] fields are all present, whose [SALE_ID] is hashable, whose
    [Quantity] converts to an integer inside the float range, and whose
    [Product] is a key of the catalogue, the loop of [compute_sales_total]
    adds [cost = catalogue[Product] * Quantity], the binary64 product of
    the price and the quantity as a float, to [per_sale[SALE_ID]]
    (starting that entry at 0 when the identifier is new) and adds the
    same cost to [grand_total], both with the binary64 [+]; nothing else
    changes. *)
Theorem valid_sale_is_added record rest s sale_id k product_name price q
    quantity :
  subscript record "SALE_ID" = Ok sale_id ->
  hashable sale_id = Ok k ->
  subscript record "Product" = Ok product_name ->
  getitem (catalogue s) product_name = Ok price ->
  subscript record "Quantity" = Ok q ->
  py_int q = Ok quantity ->
  Z.abs quantity < Float.overflow_bound ->
  let cost := PrimFloat.mul price (Float.of_Z quantity) in
  let s' := add_sale s k cost in
  for_each (record :: rest) sales_record s = for_each rest sales_record s'
  /\ dict_get (sale_totals s') k
     = Some (PrimFloat.add (subtotal (sale_totals s) k) cost)
  /\ (forall k', key_eqb k k' = false ->
        dict_get (sale_totals s') k' = dict_get (sale_totals s) k')
  /\ grand_total s' = PrimFloat.add (grand_total s) cost
  /\ catalogue s' = catalogue s /\ stdout s' = stdout s.
Proof.
  intros Hid Hk Hp Hprice Hq Hn Hrange cost s'.
  repeat split.
  - simpl. unfold bind.
    rewrite (sales_record_adds record s sale_id product_name q quantity
               price cost k); auto using mul_int_ok.
  - apply dict_get_set_same.
  - intros k' Hk'. now apply dict_get_set_other.
Qed.

(** ** No record should abort the aggregation *)

(** [C3] (failing input) A sale whose [Quantity] is the float infinity
    makes [int()] raise [OverflowError], which the [except] clause does not
    list: [compute_sales_total] raises instead of returning. *)
Theorem infinite_quantity_aborts :
  compute_sales_total
    [sale (int 1) (text "Widget") (int 4); sale_with_infinite_quantity;
     sale (int 2) (text "Widget") (int 1)]
    widget_catalogue fresh
  = (add_sale widget_store (SInt 1)
       (Float.mul (Float.of_Q (5 # 2)) (Float.of_Z 4)),
     Raise OverflowError).
Proof. reflexivity. Qed.

(** The only exception that leaves [compute_sales_total] is
    [OverflowError]. *)
Lemma compute_sales_total_raises sales cat s s' e :
  compute_sales_total sales cat s = (s', Raise e) -> e = OverflowError.
Proof.
  rewrite compute_sales_total_loop.
  destruct (for_each _ _ _) as [s1 [u|e1]] eqn:E; [discriminate|].
  intros H. inversion H; subst.
  apply sales_loop_invariant in E as (_ & _ & [Hr|Hr]); congruence.
Qed.

(** A record with every field present, an integer quantity and a
    catalogued product, whose identifier is a list: it is skipped as an
    invalid record, and its cost (5.0) is added nowhere. *)
Lemma unhashable_sale_id_is_not_added :
  subscript sale_with_list_id "SALE_ID" = Ok (VList [int 1])
  /\ subscript sale_with_list_id "Product" = Ok (text "Widget")
  /\ subscript sale_with_list_id "Quantity" = Ok (int 2)
  /\ py_int (int 2) = Ok 2
  /\ getitem (catalogue widget_store) (text "Widget") = Ok (Float.of_Q (5 # 2))
  /\ sales_record sale_with_list_id widget_store
     = (with_message widget_store (InvalidSalesRecord sale_with_list_id), Ok tt)
  /\ grand_total (fst (sales_record sale_with_list_id widget_store))
     <> Float.add (grand_total widget_store)
          (Float.mul (Float.of_Q (5 # 2)) (Float.of_Z 2)).
Proof.
  repeat split; try reflexivity.
  apply float_same_neq. vm_compute. reflexivity.
Qed.

Lemma valid_sale_is_added_witness :
  for_each [sale (int 1) (text "Widget") (text " 4 ")] sales_record widget_store
  = (Store [(SStr "Widget", 2.5%float)] [(SInt 1, 10%float)] 10%float [],
     Ok tt).
Proof.
  apply (valid_sale_is_added (sale (int 1) (text "Widget") (text " 4 ")) []
           widget_store (int 1) (SInt 1) (text "Widget") (Float.of_Q (5 # 2))
           (text " 4 ") 4); reflexivity.
Defined.

(** ** Unmatched products, and the catalogue *)

Lemma sales_record_unmatched record s name :
  subscript record "Product" = Ok name ->
  contains (catalogue s) name <> Ok true ->
  (exists m, sales_record record s = (with_message s m, Ok tt))
  \/ sales_record record s = (s, Raise OverflowError).
Proof.
  intros Hp Hc.
  destruct (subscript record "SALE_ID") as [sale_id|e] eqn:Hid.
  2:{ left. exists (InvalidSalesRecord record). unfold sales_record. run_stmt.
      rewrite Hid. destruct (subscript_raises _ _ _ Hid); subst; reflexivity. }
  destruct (subscript record "Quantity") as [q|e] eqn:Hq.
  2:{ left. exists (InvalidSalesRecord record). unfold sales_record. run_stmt.
      rewrite Hid, Hp, Hq.
      destruct (subscript_raises _ _ _ Hq); subst; reflexivity. }
  destruct (py_int q) as [quantity|e] eqn:Hn.
  2:{ destruct (py_int_raises _ _ Hn) as [->|[->| ->]];
        [left; exists (InvalidSalesRecord record)
        |left; exists (InvalidSalesRecord record)|right];
        unfold sales_record; run_stmt; rewrite Hid, Hp, Hq, Hn;
        destruct s; reflexivity. }
  unfold contains in Hc.
  destruct (hashable name) as [pk|e] eqn:Hpk.
  - left. exists (ProductNotFound name). unfold sales_record. run_stmt.
    rewrite Hid, Hp, Hq, Hn, Hpk.
    destruct (dict_mem (catalogue s) pk); [congruence|reflexivity].
  - left. exists (InvalidSalesRecord record). unfold sales_record. run_stmt.
    rewrite Hid, Hp, Hq, Hn, Hpk, (hashable_raises _ _ Hpk). reflexivity.
Qed.

(** [C5] A sale record whose [Product] is not a key of the catalogue
    leaves the per-sale mapping, the grand total and the catalogue as they
    were; and for every input, the catalogue after [compute_sales_total] is
    the catalogue it was given, entry for entry. *)
Theorem unmatched_sale_changes_nothing record s name sales cat s0 :
  subscript record "Product" = Ok name ->
  contains (catalogue s) name <> Ok true ->
  data (fst (sales_record record s)) = data s
  /\ catalogue (fst (compute_sales_total sales cat s0)) = cat.
Proof.
  intros Hp Hc. split.
  - destruct (sales_record_unmatched record s name Hp Hc) as [[m E]|E];
      rewrite E; reflexivity.
  - rewrite compute_sales_total_loop.
    destruct (for_each _ _ _) as [s1 r] eqn:E.
    apply sales_loop_invariant in E as (Hcat & _).
    destruct r; simpl in *; auto.
Qed.

Lemma unmatched_sale_changes_nothing_witness :
  data (fst (sales_record sale_of_gadget widget_store)) = data widget_store
  /\ catalogue (fst (compute_sales_total [sale_of_gadget] widget_catalogue fresh))
     = widget_catalogue.
Proof.
  apply (unmatched_sale_changes_nothing sale_of_gadget widget_store
           (text "Gadget") [sale_of_gadget] widget_catalogue fresh).
  - reflexivity.
  - simpl. discriminate.
Defined.

(** ** Determinism *)

(** What was printed before has no influence on the loop. *)
Lemma sales_loop_frame sales : forall c t g o1 o2,
  snd (for_each sales sales_record (Store c t g o1))
  = snd (for_each sales sales_record (Store c t g o2))
  /\ data (fst (for_each sales sales_record (Store c t g o1)))
     = data (fst (for_each sales sales_record (Store c t g o2))).
Proof.
  induction sales as [|record sales IH]; intros c t g o1 o2.
  - split; reflexivity.
  - simpl. unfold bind.
    destruct (sales_record_cases record c) as [[m E]|[[k [cost E]]|E]];
      rewrite !E.
    + apply IH.
    + apply IH.
    + split; reflexivity.
Qed.

Lemma compute_sales_total_frame sales cat s1 s2 :
  snd (compute_sales_total sales cat s1) = snd (compute_sales_total sales cat s2).
Proof.
  rewrite !compute_sales_total_loop.
  destruct (sales_loop_frame sales cat [] Float.zero (stdout s1) (stdout s2))
    as [Hr Hd].
  destruct (for_each _ _ (Store _ _ _ (stdout s1))) as [a [u|e]];
    destruct (for_each _ _ (Store _ _ _ (stdout s2))) as [b [v|e']];
    simpl in *; try congruence.
  unfold data in Hd. congruence.
Qed.

(** [C8] Running [compute_sales_total] on the same sales and the same
    catalogue gives the same per-sale mapping and the same grand total (or
    the same exception), whatever the store it starts from; in particular
    a second run, started in the store the first run left and on the
    catalogue object it left, returns what the first run returned. *)
Theorem compute_sales_total_deterministic sales cat s1 s2 :
  snd (compute_sales_total sales cat s1) = snd (compute_sales_total sales cat s2)
  /\ (let s' := fst (compute_sales_total sales cat s1) in
      snd (compute_sales_total sales (catalogue s') s')
      = snd (compute_sales_total sales cat s1)).
Proof.
  split.
  - apply compute_sales_total_frame.
  - simpl.
    assert (Hcat : catalogue (fst (compute_sales_total sales cat s1)) = cat).
    { rewrite compute_sales_total_loop.
      destruct (for_each _ _ _) as [s' r] eqn:E.
      apply sales_loop_invariant in E as (Hcat & _).
      destruct r; simpl in *; auto. }
    rewrite Hcat. apply compute_sales_total_frame.
Qed.

(** ** Quantities that are not integers, or negative *)

Lemma trunc_toward_zero (q : Qc) :
  let n := Number.trunc q in
  Z.abs n * Zpos (Qden q) <= Z.abs (Qnum q)
  /\ Z.abs (Qnum q) < (Z.abs n + 1) * Zpos (Qden q)
  /\ 0 <= n * Qnum q.
Proof.
  unfold Number.trunc. set (a := Qnum q). set (b := Zpos (Qden q)).
  assert (Hb : 0 < b) by (unfold b; lia).
  cbv zeta. rewrite <- Z.quot_abs by lia.
  rewrite (Z.abs_eq b) by lia.
  rewrite Z.quot_div_nonneg by lia.
  repeat split.
  - rewrite Z.mul_comm. apply Z.mul_div_le. lia.
  - rewrite Z.mul_comm. apply Z.mul_succ_div_gt. lia.
  - destruct (Z.le_gt_cases 0 a).
    + apply Z.mul_nonneg_nonneg; auto. apply Z.quot_pos; lia.
    + apply Z.mul_nonpos_nonpos; try lia.
      rewrite <- (Z.opp_involutive a), Z.quot_opp_l by lia.
      assert (0 <= (- a) ÷ b) by (apply Z.quot_pos; lia). lia.
Qed.

Lemma digits2_pos_bound (m : positive) : Zpos m < 2 ^ Zpos (digits2_pos m).
Proof.
  induction m as [m IH|m IH|]; simpl digits2_pos.
  - rewrite Pos2Z.inj_succ, Z.pow_succ_r by lia. lia.
  - rewrite Pos2Z.inj_succ, Z.pow_succ_r by lia. lia.
  - reflexivity.
Qed.

Lemma qred_num_le (q : Q) : Z.abs (Qnum (Qred q)) <= Z.abs (Qnum q).
Proof.
  destruct q as [n d]. unfold Qred.
  pose proof (Z.ggcd_correct_divisors n (Zpos d)) as H.
  pose proof (Z.ggcd_gcd n (Zpos d)) as G.
  pose proof (Z.gcd_nonneg n (Zpos d)) as P.
  destruct (Z.ggcd n (Zpos d)) as [g [nn dd]]. simpl in *.
  destruct H as [Hn Hd]. rewrite <- G in P.
  assert (Hg : 0 < g).
  { destruct (Z.eq_dec g 0) as [->|]; [|lia]. rewrite Z.mul_0_l in Hd. lia. }
  rewrite Hn, Z.abs_mul. rewrite (Z.abs_eq g) by lia.
  assert (0 <= Z.abs nn) by apply Z.abs_nonneg. nia.
Qed.

Lemma trunc_le_num (q : Qc) : Z.abs (Number.trunc q) <= Z.abs (Qnum q).
Proof.
  pose proof (trunc_toward_zero q) as (H & _). cbv zeta in H.
  assert (0 < Zpos (Qden q)) by lia. nia.
Qed.

(** The integer part of a finite float is inside the float range: a
    float has 53 bits at most and an exponent of 971 at most. *)
Lemma finite_float_in_range (x : float) q :
  Float.exact x = Number.Fin q ->
  Z.abs (Number.trunc q) < Float.overflow_bound.
Proof.
  unfold Float.exact. pose proof (Prim2SF_valid x) as V.
  destruct (Prim2SF x) as [sg|sg| |sg m e]; try (destruct sg; discriminate);
    try discriminate.
  - intros H. inversion H. reflexivity.
  - intros H. inversion H as [Hq]. clear H.
    eapply Z.le_lt_trans; [apply trunc_le_num|]. simpl Qnum.
    unfold Q2Qc, this.
    eapply Z.le_lt_trans; [apply qred_num_le|].
    unfold valid_binary, bounded, canonical_mantissa in V.
    apply andb_true_iff in V as [V1 V2].
    apply Z.leb_le in V2. apply Z.eqb_eq in V1.
    unfold fexp, emin in V1.
    pose proof (digits2_pos_bound m) as D.
    assert (Hd : Zpos (digits2_pos m) <= prec) by lia.
    assert (Hm : Zpos m < 2 ^ prec).
    { eapply Z.lt_le_trans; [exact D|]. apply Z.pow_le_mono_r; lia. }
    assert (Hn : Z.abs (if sg then Zneg m else Zpos m) = Zpos m)
      by (destruct sg; reflexivity).
    destruct (0 <=? e) eqn:E.
    + apply Z.leb_le in E. simpl Qnum. rewrite Z.abs_mul, Hn.
      rewrite (Z.abs_eq (2 ^ e)) by (apply Z.pow_nonneg; lia).
      assert (He : 2 ^ e <= 2 ^ (emax - prec)) by (apply Z.pow_le_mono_r; lia).
      assert (Hb : (2 ^ prec - 1) * 2 ^ (emax - prec) < Float.overflow_bound)
        by (vm_compute; reflexivity).
      assert (0 < 2 ^ e) by (apply Z.pow_pos_nonneg; lia).
      nia.
    + simpl Qnum. rewrite Hn.
      assert (Hb : 2 ^ prec < Float.overflow_bound) by (vm_compute; reflexivity).
      lia.
Qed.

(** [C9] A sale whose [Quantity] is a finite float [x], integral or not,
    is not rejected: with [q] the exact value of [x], the quantity used is
    [n], the integer part of [q] (the integer of the same sign with
    [|n| <= |q| < |n| + 1]), and the cost added is the binary64 product of
    the price and [n].  For the price 2.5 and the quantity 4.7 the cost is
    10.0, which is 2.5 * 4.  The same record with the quantity written as
    the text [4.7] is skipped as an invalid record. *)
Theorem fractional_quantity_is_truncated s sale_id k product_name price x q :
  hashable sale_id = Ok k ->
  getitem (catalogue s) product_name = Ok price ->
  Float.exact x = Number.Fin q ->
  let n := Number.trunc q in
  sales_record (sale sale_id product_name (VScalar (SFloat x))) s
  = (add_sale s k (PrimFloat.mul price (Float.of_Z n)), Ok tt)
  /\ (Z.abs n * Zpos (Qden q) <= Z.abs (Qnum q)
      /\ Z.abs (Qnum q) < (Z.abs n + 1) * Zpos (Qden q)
      /\ 0 <= n * Qnum q)
  /\ py_int (VScalar (SFloat 4.7%float)) = Ok 4
  /\ py_int (VScalar (SFloat (-4.7)%float)) = Ok (-4)
  /\ sales_record (sale (int 3) (text "Widget") (VScalar (SFloat 4.7%float)))
       widget_store
     = (Store [(SStr "Widget", 2.5%float)] [(SInt 3, 10%float)] 10%float [],
        Ok tt)
  /\ py_int (text "4.7") = Raise ValueError
  /\ sales_record (sale sale_id product_name (text "4.7")) s
     = (with_message s
          (InvalidSalesRecord (sale sale_id product_name (text "4.7"))),
        Ok tt).
Proof.
  intros Hk Hprice Hx n. repeat split.
  - pose proof (finite_float_in_range x q Hx) as Hrange.
    eapply sales_record_adds; eauto using mul_int_ok; try reflexivity.
    simpl. unfold Float.to_int. now rewrite Hx.
  - apply trunc_toward_zero.
  - apply trunc_toward_zero.
  - apply trunc_toward_zero.
Qed.

Lemma fractional_quantity_is_truncated_witness :
  sales_record (sale (int 3) (text "Widget") (number (47 # 10))) widget_store
  = (Store [(SStr "Widget", 2.5%float)] [(SInt 3, 10%float)] 10%float [],
     Ok tt).
Proof.
  apply (fractional_quantity_is_truncated widget_store (int 3) (SInt 3)
           (text "Widget") (Float.of_Q (5 # 2)) (Float.of_Q (47 # 10))
           (Q2Qc (5291729562160333 # 1125899906842624)));
    reflexivity.
Defined.

(** [C10] There is no sign check on quantities: with a catalogued product
    of positive price and a sale of a negative integer quantity, the cost
    is negative and is accumulated, so that a per-sale subtotal and the
    grand total are strictly negative. *)
Theorem negative_quantity_gives_negative_totals :
  exists cat price s totals g v,
    snd (build_price_catalogue widget_products fresh) = Ok cat
    /\ dict_get cat (SStr "Widget") = Some price
    /\ Float.ltb Float.zero price = true
    /\ py_int (int (-4)) = Ok (-4)
    /\ compute_sales_total returned_widgets cat fresh = (s, Ok (totals, g))
    /\ dict_get totals (SInt 1) = Some v
    /\ v = Float.add Float.zero (Float.mul price (Float.of_Z (-4)))
    /\ negative v = true
    /\ negative g = true.
Proof.
  do 6 eexists. repeat split; try reflexivity.
Qed.

(** ** The loop of [build_price_catalogue] *)

Lemma py_float_raises (v : Value) e :
  py_float v = Raise e -> e = ValueError \/ e = TypeError \/ e = OverflowError.
Proof.
  destruct v as [[|b|n|x|s]| |]; simpl; try (intros H; right; left; congruence);
    try discriminate.
  - unfold Float.of_int. destruct (Z.abs n <? Float.overflow_bound);
      intros H; try discriminate. right; right; congruence.
  - unfold Text.to_float.
    destruct (Text.underscores_ok _ _); [|intros H; left; congruence].
    destruct (Text.split_sign _) as [neg body].
    destruct (_ || _); [discriminate|].
    destruct (Text.is_word "nan" body); [discriminate|].
    destruct (Text.decimal body); [discriminate|].
    intros H; left; congruence.
Qed.

Lemma product_entry_valid product k price s :
  product_fields product = Some (k, price) ->
  product_entry product s = (add_product s k price, Ok tt).
Proof.
  unfold product_fields, product_entry. run_stmt.
  destruct (subscript product "title") as [title|]; [|discriminate].
  destruct (subscript product "price") as [p|]; [|discriminate].
  destruct (py_float p) as [x|]; [|discriminate].
  destruct (hashable title) as [k0|]; [|discriminate].
  intros H. inversion H; subst. reflexivity.
Qed.

Lemma product_entry_invalid product :
  product_fields product = None ->
  (forall s, product_entry product s
             = (with_message s (InvalidProductEntry product), Ok tt))
  \/ (forall s, product_entry product s = (s, Raise OverflowError)).
Proof.
  unfold product_fields, product_entry.
  destruct (subscript product "title") as [title|e] eqn:Ht.
  2:{ intros _. left. intros s. run_stmt.
      destruct (subscript_raises _ _ _ Ht); subst; reflexivity. }
  destruct (subscript product "price") as [p|e] eqn:Hp.
  2:{ intros _. left. intros s. run_stmt.
      destruct (subscript_raises _ _ _ Hp); subst; reflexivity. }
  destruct (py_float p) as [x|e] eqn:Hx.
  2:{ intros _. destruct (py_float_raises _ _ Hx) as [->|[->| ->]];
        [left|left|right]; intros s; run_stmt; rewrite Hx; destruct s;
        reflexivity. }
  destruct (hashable title) as [k|e] eqn:Hk; [discriminate|].
  intros _. left. intros s. run_stmt.
  rewrite Hx, Hk, (hashable_raises _ _ Hk). reflexivity.
Qed.

(** When the loop ends normally, the catalogue is what writing the valid
    entries in input order gives. *)
Lemma build_loop products : forall s s',
  for_each products product_entry s = (s', Ok tt) ->
  catalogue s' = write_all (catalogue s) (valid_entries products).
Proof.
  induction products as [|p products IH]; intros s s' H.
  - inversion H; subst. reflexivity.
  - simpl in H. unfold bind in H. simpl.
    destruct (product_fields p) as [[k price]|] eqn:E.
    + rewrite (product_entry_valid p k price s E) in H.
      apply IH in H. rewrite H. reflexivity.
    + destruct (product_entry_invalid p E) as [F|F]; rewrite F in H.
      * apply IH in H. rewrite H. reflexivity.
      * discriminate.
Qed.

Lemma build_price_catalogue_ok products s cat :
  snd (build_price_catalogue products s) = Ok cat ->
  cat = write_all [] (valid_entries products).
Proof.
  unfold build_price_catalogue. run_stmt.
  destruct (for_each _ _ _) as [s' [[]|e]] eqn:E; simpl; [|discriminate].
  intros H. inversion H; subst. apply build_loop in E. exact E.
Qed.

Lemma valid_entries_app pre post :
  valid_entries (pre ++ post) = valid_entries pre ++ valid_entries post.
Proof.
  induction pre as [|p pre IH]; simpl; auto.
  destruct (product_fields p); simpl; now rewrite IH.
Qed.

Lemma valid_entries_in e products :
  In e (valid_entries products) ->
  exists r, In r products /\ product_fields r = Some e.
Proof.
  induction products as [|p products IH]; simpl; [tauto|].
  destruct (product_fields p) as [e'|] eqn:E; simpl.
  - intros [->|H]; [exists p; auto|].
    destruct (IH H) as (r & Hr & Hf). exists r; auto.
  - intros H. destruct (IH H) as (r & Hr & Hf). exists r; auto.
Qed.

Lemma in_valid_entries r e products :
  In r products -> product_fields r = Some e -> In e (valid_entries products).
Proof.
  induction products as [|p products IH]; simpl; [tauto|].
  intros [->|H] Hf.
  - rewrite Hf. now left.
  - destruct (product_fields p); simpl; auto.
Qed.

(** ** Writing entries in order *)

Lemma write_all_app d pre post :
  write_all d (pre ++ post) = write_all (write_all d pre) post.
Proof. apply fold_left_app. Qed.

Lemma write_all_keeps d entries k v :
  Forall (fun e => key_eqb (fst e) k = false) entries ->
  dict_get d k = Some v -> dict_get (write_all d entries) k = Some v.
Proof.
  intros H. revert d. induction H as [|[k' v'] entries Hk _ IH]; intros d Hd.
  - exact Hd.
  - simpl. apply IH. simpl in Hk. now rewrite dict_get_set_other.
Qed.

Lemma dict_mem_app d1 d2 k :
  dict_mem (d1 ++ d2) k = dict_mem d1 k || dict_mem d2 k.
Proof.
  unfold dict_mem. induction d1 as [|[k' v'] d1 IH]; simpl; auto.
  destruct (key_eqb k' k); auto.
Qed.

Lemma distinct_keys_app_mem d k v rest :
  distinct_keys (d ++ (k, v) :: rest) = true -> dict_mem d k = false.
Proof.
  induction d as [|[k0 v0] d IH]; simpl; auto.
  intros H. apply andb_true_iff in H as [H1 H2].
  apply negb_true_iff in H1. rewrite dict_mem_app in H1.
  apply orb_false_iff in H1 as [_ H1].
  unfold dict_mem in H1 |- *. simpl in H1 |- *.
  rewrite key_eqb_sym. destruct (key_eqb k k0); [discriminate|].
  now apply IH.
Qed.

Lemma write_all_distinct entries : forall d,
  distinct_keys (d ++ entries) = true -> write_all d entries = d ++ entries.
Proof.
  induction entries as [|[k v] entries IH]; intros d H; simpl.
  - now rewrite app_nil_r.
  - rewrite (dict_set_new d k v (distinct_keys_app_mem _ _ _ _ H)).
    rewrite IH; rewrite <- app_assoc; auto.
Qed.

Lemma in_dict_set d k v k0 v0 :
  In (k0, v0) (dict_set d k v) ->
  In (k0, v0) d \/ (v0 = v /\ key_eqb k0 k = true).
Proof.
  induction d as [|[k' v'] d IH]; simpl.
  - intros [H|[]]. inversion H; subst. right. split; auto using key_eqb_refl.
  - destruct (key_eqb k' k) eqn:E; simpl.
    + intros [H|H]; [|auto]. inversion H; subst. auto.
    + intros [H|H]; [auto|]. destruct (IH H) as [H'|H']; auto.
Qed.

Lemma in_write_all entries : forall d k0 v0,
  In (k0, v0) (write_all d entries) ->
  In (k0, v0) d
  \/ exists k, In (k, v0) entries /\ key_eqb k0 k = true.
Proof.
  induction entries as [|[k v] entries IH]; intros d k0 v0 H; simpl in *; auto.
  destruct (IH _ _ _ H) as [H1|(k1 & H1 & H2)].
  - destruct (in_dict_set _ _ _ _ _ H1) as [H3|[-> H3]]; auto.
    right. exists k. auto.
  - right. exists k1. auto.
Qed.

(** ** Duplicate titles and the size of the catalogue *)

(** [C4] When [build_price_catalogue] returns, a title that valid records
    carry is mapped to the price of the last valid record carrying it
    (earlier prices are overwritten); and when the valid records have
    pairwise different titles, the catalogue has as many entries as there
    are valid records (it is the list of their entries). *)
Theorem last_write_wins_and_size products s cat :
  snd (build_price_catalogue products s) = Ok cat ->
  (forall pre r post k price,
      products = pre ++ r :: post ->
      product_fields r = Some (k, price) ->
      (forall r' k' price', In r' post ->
         product_fields r' = Some (k', price') -> key_eqb k' k = false) ->
      dict_get cat k = Some price)
  /\ (distinct_keys (valid_entries products) = true ->
      List.length cat = List.length (valid_entries products)
      /\ cat = valid_entries products).
Proof.
  intros H. apply build_price_catalogue_ok in H. subst cat. split.
  - intros pre r post k price -> Hf Hlast.
    rewrite valid_entries_app. simpl. rewrite Hf.
    rewrite write_all_app. simpl.
    apply write_all_keeps; [|apply dict_get_set_same].
    apply Forall_forall. intros [k' price'] Hin.
    destruct (valid_entries_in _ _ Hin) as (r' & Hr' & Hf').
    simpl. eauto.
  - intros Hd. rewrite (write_all_distinct _ [] Hd). auto.
Qed.

Lemma last_write_wins_and_size_witness :
  snd (build_price_catalogue repriced_products fresh)
  = Ok [(SStr "A", 3%float); (SStr "B", 2%float)]
  /\ dict_get [(SStr "A", 3%float); (SStr "B", 2%float)] (SStr "A")
     = Some 3%float.
Proof.
  split; [reflexivity|].
  refine (proj1 (last_write_wins_and_size repriced_products fresh
                   [(SStr "A", 3%float); (SStr "B", 2%float)]
                   eq_refl)
            [product (text "A") (text "1.5"); product (text "B") (int 2);
             VDict [("title", text "A")]]
            (product (text "A") (text "3"))
            [product (text "C") (text "free")]
            (SStr "A") 3%float eq_refl eq_refl _).
  intros r' k' price' [<-|[]]. discriminate.
Defined.

(** ** Prices in the catalogue *)

(** A product whose price is [-1] is stored with the price [-1.0]. *)
Lemma negative_price_is_stored :
  snd (build_price_catalogue negative_products fresh)
  = Ok [(SStr "Widget", (-1)%float)]
  /\ In (SStr "Widget", (-1)%float) [(SStr "Widget", (-1)%float)]
  /\ nonneg_real (-1)%float = false.
Proof. repeat split. now left. Qed.

(** [C6] (amended) When [build_price_catalogue] returns, every price
    stored in the catalogue is the float that [float()] gives for the
    price field of a valid record of the list carrying that title; no sign
    is checked, so the stored prices are non-negative real numbers when
    the prices of all valid records are. *)
Theorem stored_price_comes_from_a_record products s cat k v :
  snd (build_price_catalogue products s) = Ok cat ->
  In (k, v) cat ->
  (exists r k', In r products /\ product_fields r = Some (k', v)
                /\ key_eqb k k' = true)
  /\ ((forall r k' v', In r products -> product_fields r = Some (k', v') ->
         nonneg_real v' = true) ->
      nonneg_real v = true).
Proof.
  intros H Hin. apply build_price_catalogue_ok in H. subst cat.
  destruct (in_write_all _ _ _ _ Hin) as [[]|(k' & Hk' & Heq)].
  destruct (valid_entries_in _ _ Hk') as (r & Hr & Hf).
  split.
  - exists r, k'. auto.
  - intros Hall. eapply Hall; eauto.
Qed.

Lemma stored_price_comes_from_a_record_witness :
  snd (build_price_catalogue negative_products fresh)
  = Ok [(SStr "Widget", (-1)%float)]
  /\ exists r k', In r negative_products
       /\ product_fields r = Some (k', (-1)%float)
       /\ key_eqb (SStr "Widget") k' = true.
Proof.
  split; [reflexivity|].
  refine (proj1 (stored_price_comes_from_a_record negative_products fresh
                   [(SStr "Widget", (-1)%float)] (SStr "Widget")
                   (-1)%float eq_refl _)).
  now left.
Defined.

(** ** Orders on keys *)

Lemma number_ltb_asym (x y : Number.t) :
  Number.ltb x y = true -> Number.ltb y x = false.
Proof.
  destruct x as [a| | |], y as [b| | |]; simpl; try congruence.
  destruct (a ?= b)%Qc eqn:E; try discriminate. intros _.
  apply Qclt_alt in E.
  destruct (b ?= a)%Qc eqn:F; auto.
  apply Qclt_alt in F. exfalso.
  exact (Qclt_not_le _ _ E (Qclt_le_weak _ _ F)).
Qed.

Lemma number_ltb_trans (x y z : Number.t) :
  Number.ltb x y = true -> Number.ltb y z = true -> Number.ltb x z = true.
Proof.
  destruct x as [a| | |], y as [b| | |], z as [c| | |]; simpl; try congruence.
  destruct (a ?= b)%Qc eqn:E; try discriminate.
  destruct (b ?= c)%Qc eqn:F; try discriminate. intros _ _.
  apply Qclt_alt in E, F.
  now rewrite (proj1 (Qclt_alt a c) (Qclt_trans _ _ _ E F)).
Qed.

Lemma number_ltb_total (x y : Number.t) :
  x <> Number.NaN -> y <> Number.NaN -> x <> y ->
  Number.ltb x y = true \/ Number.ltb y x = true.
Proof.
  destruct x as [a| | |], y as [b| | |]; simpl; try congruence; auto.
  intros _ _ H.
  destruct (Qc_dec a b) as [[L|L]|L].
  - left. now rewrite (proj1 (Qclt_alt a b) L).
  - right. now rewrite (proj1 (Qclt_alt b a) L).
  - subst b. now elim H.
Qed.

Lemma ascii_compare_refl (a : ascii) : (a ?= a)%char = Eq.
Proof. unfold Ascii.compare. apply N.compare_refl. Qed.

Lemma ascii_compare_lt_trans (a b c : ascii) :
  (a ?= b)%char = Lt -> (b ?= c)%char = Lt -> (a ?= c)%char = Lt.
Proof.
  unfold Ascii.compare. rewrite !N.compare_lt_iff. apply N.lt_trans.
Qed.

Lemma string_compare_lt_trans (s : string) : forall t u,
  (s ?= t)%string = Lt -> (t ?= u)%string = Lt -> (s ?= u)%string = Lt.
Proof.
  induction s as [|a s IH]; intros [|b t] [|c u]; simpl; try congruence.
  destruct (a ?= b)%char eqn:E; try discriminate.
  - apply Ascii.compare_eq_iff in E. subst b.
    destruct (a ?= c)%char; try congruence. apply IH.
  - intros _. destruct (b ?= c)%char eqn:F; try discriminate.
    + apply Ascii.compare_eq_iff in F. subst c. now rewrite E.
    + intros _. now rewrite (ascii_compare_lt_trans _ _ _ E F).
Qed.

Lemma string_ltb_asym (s t : string) :
  String.ltb s t = true -> String.ltb t s = false.
Proof.
  unfold String.ltb. rewrite (String.compare_antisym t s).
  destruct (s ?= t)%string; simpl; congruence.
Qed.

Lemma string_ltb_trans (s t u : string) :
  String.ltb s t = true -> String.ltb t u = true -> String.ltb s u = true.
Proof.
  unfold String.ltb.
  destruct (s ?= t)%string eqn:E; try discriminate.
  destruct (t ?= u)%string eqn:F; try discriminate.
  now rewrite (string_compare_lt_trans _ _ _ E F).
Qed.

Lemma string_ltb_total (s t : string) :
  s <> t -> String.ltb s t = true \/ String.ltb t s = true.
Proof.
  intros H. unfold String.ltb. rewrite (String.compare_antisym t s).
  destruct (s ?= t)%string eqn:E; simpl; auto.
  apply String.compare_eq_iff in E. congruence.
Qed.

(** ** Sorting keys of one kind *)

Section Sorting.

Variable C : Scalar -> Prop.

Hypothesis lt_defined : forall a b, C a -> C b -> exists r, py_lt a b = Ok r.

Hypothesis lt_asym : forall a b,
  C a -> C b -> py_lt a b = Ok true -> py_lt b a = Ok false.

Hypothesis lt_trans : forall a b c,
  C a -> C b -> C c ->
  py_lt a b = Ok true -> py_lt b c = Ok true -> py_lt a c = Ok true.

Hypothesis lt_total : forall a b,
  C a -> C b -> key_eqb a b = false ->
  py_lt a b = Ok true \/ py_lt b a = Ok true.

Lemma insert_sorted x ys :
  C x -> Forall C ys -> StronglySorted not_descending ys ->
  exists zs, insert x ys = Ok zs /\ Permutation zs (x :: ys)
             /\ StronglySorted not_descending zs.
Proof.
  intros Hx Hys Hs. induction Hs as [|y rest Hs IH Hy]; simpl.
  - exists [x]. repeat split; auto. constructor; constructor.
  - inversion Hys as [|? ? Cy Crest]; subst.
    destruct (lt_defined x y Hx Cy) as [[|] Hr]; rewrite Hr.
    + exists (x :: y :: rest). repeat split; auto.
      constructor; [constructor; auto|].
      constructor; [now apply lt_asym|].
      rewrite Forall_forall in Hy, Crest |- *. intros z Hz.
      unfold not_descending in *.
      destruct (lt_defined z x (Crest z Hz) Hx) as [[|] Hzx]; auto.
      specialize (Hy z Hz).
      rewrite (lt_trans z x y (Crest z Hz) Hx Cy Hzx Hr) in Hy.
      discriminate.
    + destruct (IH Crest) as (zs & Hi & Hp & Hs').
      rewrite Hi. exists (y :: zs). repeat split.
      * rewrite Hp. apply perm_swap.
      * constructor; auto.
        apply (Permutation_Forall (Permutation_sym Hp)).
        constructor; auto.
Qed.

Lemma sorted_from xs : forall acc,
  Forall C acc -> StronglySorted not_descending acc -> Forall C xs ->
  exists ys,
    fold_left (fun acc x =>
                 match acc with
                 | Ok ys => insert x ys
                 | Raise e => Raise e
                 end) xs (Ok acc) = Ok ys
    /\ Permutation ys (acc ++ xs) /\ StronglySorted not_descending ys.
Proof.
  induction xs as [|x xs IH]; intros acc Hacc Hs Hxs; simpl.
  - exists acc. rewrite app_nil_r. auto.
  - inversion Hxs as [|? ? Cx Cxs]; subst.
    destruct (insert_sorted x acc Cx Hacc Hs) as (zs & Hi & Hp & Hs').
    rewrite Hi.
    destruct (IH zs) as (ys & Hf & Hp' & Hs''); auto.
    + apply (Permutation_Forall (Permutation_sym Hp)). constructor; auto.
    + exists ys. repeat split; auto.
      rewrite Hp', Hp. apply Permutation_cons_app.
      reflexivity.
Qed.

Lemma sorted_kind xs :
  Forall C xs ->
  exists ys, sorted xs = Ok ys /\ Permutation ys xs
             /\ StronglySorted not_descending ys.
Proof.
  intros H. apply (sorted_from xs []); auto. constructor.
Qed.

Lemma strictly_sorted ys :
  Forall C ys -> Distinct ys -> StronglySorted not_descending ys ->
  StronglySorted ascending ys.
Proof.
  intros Hc Hd Hs. induction Hs as [|y rest Hs IH Hy].
  - constructor.
  - inversion Hc as [|? ? Cy Crest]; subst.
    inversion Hd as [|? ? Dy Drest]; subst.
    constructor; auto.
    rewrite Forall_forall in Hy, Crest, Dy |- *. intros z Hz.
    destruct (lt_total y z Cy (Crest z Hz) (Dy z Hz)) as [L|L]; auto.
    specialize (Hy z Hz). unfold not_descending in Hy. congruence.
Qed.

End Sorting.

Lemma Distinct_perm l l' : Permutation l l' -> Distinct l -> Distinct l'.
Proof.
  induction 1 as [|x l l' Hp IH|x y l|l l' l'' _ IH1 _ IH2]; intros H; auto.
  - inversion H; subst. constructor; auto.
    now apply (Permutation_Forall Hp).
  - inversion H as [|? ? Hy Hd]; subst.
    inversion Hd as [|? ? Hx Hd']; subst.
    inversion Hy as [|? ? Hyx Hy']; subst.
    constructor; [|constructor; auto].
    constructor; auto. now rewrite key_eqb_sym.
Qed.

Lemma distinct_keys_Distinct (d : dict) :
  distinct_keys d = true -> Distinct (keys d).
Proof.
  induction d as [|[k v] d IH]; simpl; intros H; [constructor|].
  apply andb_true_iff in H as [H1 H2]. apply negb_true_iff in H1.
  constructor; auto using dict_mem_false_keys.
Qed.

Lemma numeric_number k :
  is_number k = true -> exists x, numeric k = Some x /\ x <> Number.NaN.
Proof.
  unfold is_number. destruct (numeric k) as [[a| | |]|]; try discriminate;
    intros _; eexists; split; eauto; discriminate.
Qed.

Lemma py_lt_numeric a b x y :
  numeric a = Some x -> numeric b = Some y -> py_lt a b = Ok (Number.ltb x y).
Proof.
  destruct a, b; simpl; intros Ha Hb; try discriminate;
    inversion Ha; inversion Hb; reflexivity.
Qed.

Lemma key_eqb_numeric a b x y :
  numeric a = Some x -> numeric b = Some y -> key_eqb a b = Number.same x y.
Proof.
  destruct a, b; simpl; intros Ha Hb; try discriminate;
    inversion Ha; inversion Hb; reflexivity.
Qed.

Lemma sorted_numbers xs :
  Forall (fun k => is_number k = true) xs -> Distinct xs ->
  exists ys, sorted xs = Ok ys /\ Permutation ys xs
             /\ StronglySorted ascending ys.
Proof.
  intros Hc Hd.
  set (C := fun k => is_number k = true).
  assert (Hdef : forall a b, C a -> C b -> exists r, py_lt a b = Ok r).
  { intros a b Ha Hb.
    destruct (numeric_number a Ha) as (x & Hx & _).
    destruct (numeric_number b Hb) as (y & Hy & _).
    eexists. apply (py_lt_numeric a b x y Hx Hy). }
  assert (Hasym : forall a b, C a -> C b ->
                   py_lt a b = Ok true -> py_lt b a = Ok false).
  { intros a b Ha Hb.
    destruct (numeric_number a Ha) as (x & Hx & _).
    destruct (numeric_number b Hb) as (y & Hy & _).
    rewrite (py_lt_numeric a b x y Hx Hy), (py_lt_numeric b a y x Hy Hx).
    intros H. injection H as H'. now rewrite (number_ltb_asym _ _ H'). }
  assert (Htrans : forall a b c, C a -> C b -> C c ->
                    py_lt a b = Ok true -> py_lt b c = Ok true ->
                    py_lt a c = Ok true).
  { intros a b c Ha Hb Hc'.
    destruct (numeric_number a Ha) as (x & Hx & _).
    destruct (numeric_number b Hb) as (y & Hy & _).
    destruct (numeric_number c Hc') as (z & Hz & _).
    rewrite (py_lt_numeric a b x y Hx Hy), (py_lt_numeric b c y z Hy Hz),
      (py_lt_numeric a c x z Hx Hz).
    intros H1 H2. injection H1 as H1'. injection H2 as H2'.
    now rewrite (number_ltb_trans _ _ _ H1' H2'). }
  assert (Htotal : forall a b, C a -> C b -> key_eqb a b = false ->
                    py_lt a b = Ok true \/ py_lt b a = Ok true).
  { intros a b Ha Hb.
    destruct (numeric_number a Ha) as (x & Hx & Nx).
    destruct (numeric_number b Hb) as (y & Hy & Ny).
    rewrite (py_lt_numeric a b x y Hx Hy), (py_lt_numeric b a y x Hy Hx),
      (key_eqb_numeric a b x y Hx Hy).
    intros H.
    assert (Hne : x <> y).
    { intros E. apply number_same_eq in E. congruence. }
    clear H. rename Hne into H.
    destruct (number_ltb_total x y Nx Ny H) as [L|L]; rewrite L; auto. }
  destruct (sorted_kind C Hdef Hasym Htrans xs Hc) as (ys & Hs & Hp & Hso).
  exists ys. repeat split; auto.
  apply (strictly_sorted C Htotal); auto.
  - apply (Permutation_Forall (Permutation_sym Hp)); auto.
  - apply (Distinct_perm xs ys); auto. now apply Permutation_sym.
Qed.

Lemma text_key k : is_text k = true -> exists s, k = SStr s.
Proof. destruct k; try discriminate. eauto. Qed.

Lemma sorted_text xs :
  Forall (fun k => is_text k = true) xs -> Distinct xs ->
  exists ys, sorted xs = Ok ys /\ Permutation ys xs
             /\ StronglySorted ascending ys.
Proof.
  intros Hc Hd.
  set (C := fun k => is_text k = true).
  assert (Hdef : forall a b, C a -> C b -> exists r, py_lt a b = Ok r).
  { intros a b Ha Hb.
    destruct (text_key a Ha) as [s ->]. destruct (text_key b Hb) as [t ->].
    simpl. eauto. }
  assert (Hasym : forall a b, C a -> C b ->
                   py_lt a b = Ok true -> py_lt b a = Ok false).
  { intros a b Ha Hb.
    destruct (text_key a Ha) as [s ->]. destruct (text_key b Hb) as [t ->].
    simpl. intros H. injection H as H'.
    now rewrite (string_ltb_asym _ _ H'). }
  assert (Htrans : forall a b c, C a -> C b -> C c ->
                    py_lt a b = Ok true -> py_lt b c = Ok true ->
                    py_lt a c = Ok true).
  { intros a b c Ha Hb Hc'.
    destruct (text_key a Ha) as [s ->]. destruct (text_key b Hb) as [t ->].
    destruct (text_key c Hc') as [u ->].
    simpl. intros H1 H2. injection H1 as H1'. injection H2 as H2'.
    now rewrite (string_ltb_trans _ _ _ H1' H2'). }
  assert (Htotal : forall a b, C a -> C b -> key_eqb a b = false ->
                    py_lt a b = Ok true \/ py_lt b a = Ok true).
  { intros a b Ha Hb.
    destruct (text_key a Ha) as [s ->]. destruct (text_key b Hb) as [t ->].
    simpl. intros H.
    assert (Hne : s <> t).
    { intros ->. now rewrite String.eqb_refl in H. }
    destruct (string_ltb_total s t Hne) as [L|L]; rewrite L; auto. }
  destruct (sorted_kind C Hdef Hasym Htrans xs Hc) as (ys & Hs & Hp & Hso).
  exists ys. repeat split; auto.
  apply (strictly_sorted C Htotal); auto.
  - apply (Permutation_Forall (Permutation_sym Hp)); auto.
  - apply (Distinct_perm xs ys); auto. now apply Permutation_sym.
Qed.

Lemma sorted_short xs :
  (List.length xs <= 1)%nat ->
  sorted xs = Ok xs /\ StronglySorted ascending xs.
Proof.
  destruct xs as [|x [|y xs]]; simpl; intros H; try lia.
  - split; [reflexivity|constructor].
  - split; [reflexivity|]. constructor; constructor.
Qed.

(** ** The report *)

Lemma in_keys_get (d : dict) k :
  In k (keys d) -> dict_get d k = Some (subtotal d k).
Proof.
  unfold subtotal. intros H.
  destruct (dict_get d k) eqn:E; auto. exfalso.
  induction d as [|[k' v'] d IH]; simpl in *; auto.
  destruct (key_eqb k' k) eqn:F; [discriminate|].
  destruct H as [->|H]; auto. now rewrite key_eqb_refl in F.
Qed.

Lemma report_loop repr_float (d : dict) ids :
  (forall k, In k ids -> In k (keys d)) ->
  forall o,
    for_each ids (fun sale_id =>
      total <- eval (getitem d (VScalar sale_id));;
      let line := report_line repr_float sale_id total in
      print_text (strip line);;
      write line) o
    = (Output
         (file o ++ map (fun k => report_line repr_float k (subtotal d k)) ids)
         (console o
          ++ map (fun k => strip (report_line repr_float k (subtotal d k))) ids),
       Ok tt).
Proof.
  induction ids as [|k ids IH]; intros Hin o.
  - simpl. rewrite !app_nil_r. now destruct o.
  - simpl. unfold bind at 1. unfold bind at 1, eval, getitem. simpl.
    rewrite (in_keys_get d k) by (apply Hin; now left).
    unfold bind at 1, print_text, write, modify. simpl.
    rewrite IH by (intros k' Hk'; apply Hin; now right).
    simpl. now rewrite <- !app_assoc.
Qed.

(** [C7] (failing input) Two sales of a catalogued product, one under the
    identifier [1] and one under the identifier ["A7"], give the per-sale
    mapping [{1: 10.0, "A7": 5.0}]; for that mapping [sorted] compares a
    number with a text and raises [TypeError]: [write_results] raises
    after the header went out, and the file, emptied when it was opened,
    holds the header alone, with no piece for any identifier and no
    footer. *)
Theorem mixed_identifiers_abort_the_report :
  snd (compute_sales_total
         [sale (int 1) (text "Widget") (int 4);
          sale (text "A7") (text "Widget") (int 2)]
         widget_catalogue fresh)
  = Ok ([(SInt 1, 10%float); (SStr "A7", 5%float)], 15%float)
  /\ py_lt (SStr "A7") (SInt 1) = Raise TypeError
  /\ write_results repr_one_decimal
       [(SInt 1, 10%float); (SStr "A7", 5%float)] 15%float 0.125%float
       (Output ["yesterday"] [])
     = (Output [header_text] [header_text], Raise TypeError).
Proof. repeat split. Qed.

(** ** One sale record, as a function of the record and the catalogue *)

Lemma contains_getitem (d : dict) v :
  match contains d v with
  | Ok true => exists x, getitem d v = Ok x
  | Ok false => getitem d v = Raise KeyError
  | Raise e => e = TypeError /\ getitem d v = Raise TypeError
  end.
Proof.
  unfold contains, getitem, dict_mem.
  destruct (hashable v) as [k|e] eqn:E.
  - destruct (dict_get d k); eauto.
  - now rewrite (hashable_raises _ _ E).
Qed.

Lemma sales_record_run record cat t g o :
  sales_record record (Store cat t g o) =
  if sale_overflows cat record then (Store cat t g o, Raise OverflowError)
  else match sale_fields cat record with
       | Some (k, cost) => (add_sale (Store cat t g o) k cost, Ok tt)
       | None => (with_message (Store cat t g o) (sale_message cat record),
                  Ok tt)
       end.
Proof.
  unfold sale_overflows, sale_fields, sale_message.
  destruct (subscript record "SALE_ID") as [sale_id|e] eqn:Hid.
  2:{ unfold sales_record. run_stmt. rewrite Hid.
      destruct (subscript_raises _ _ _ Hid); subst; reflexivity. }
  destruct (subscript record "Product") as [product_name|e] eqn:Hp.
  2:{ unfold sales_record. run_stmt. rewrite Hid, Hp.
      destruct (subscript_raises _ _ _ Hp); subst; reflexivity. }
  destruct (subscript record "Quantity") as [q|e] eqn:Hq.
  2:{ unfold sales_record. run_stmt. rewrite Hid, Hp, Hq.
      destruct (subscript_raises _ _ _ Hq); subst; reflexivity. }
  destruct (py_int q) as [quantity|e] eqn:Hn.
  2:{ destruct (py_int_raises _ _ Hn) as [->|[->| ->]];
        unfold sales_record; run_stmt; rewrite Hid, Hp, Hq, Hn; reflexivity. }
  pose proof (contains_getitem cat product_name) as Hc.
  destruct (contains cat product_name) as [[|]|e] eqn:Hin.
  - destruct Hc as [price Hprice]. rewrite Hprice.
    destruct (Float.mul_int price quantity) as [cost|e] eqn:Hcost.
    + destruct (hashable sale_id) as [k|e] eqn:Hk.
      * eapply sales_record_adds; eauto.
      * rewrite (hashable_raises _ _ Hk) in Hk.
        eapply sales_record_unhashable_id; eauto.
    + apply getitem_ok in Hprice as (pk & Hpk & Hget).
      unfold sales_record. run_stmt.
      rewrite Hid, Hp, Hq, Hn, Hpk. unfold dict_mem. rewrite Hget. simpl.
      rewrite Hcost, (mul_int_raises _ _ _ Hcost). reflexivity.
  - rewrite Hc. unfold contains in Hin.
    destruct (hashable product_name) as [pk|] eqn:Hpk; [|discriminate].
    unfold sales_record. run_stmt. rewrite Hid, Hp, Hq, Hn, Hpk.
    inversion Hin as [Hm]. rewrite Hm. reflexivity.
  - destruct Hc as [-> Hc]. rewrite Hc. unfold contains in Hin.
    destruct (hashable product_name) as [pk|e'] eqn:Hpk; [discriminate|].
    unfold sales_record. run_stmt. rewrite Hid, Hp, Hq, Hn, Hpk.
    rewrite (hashable_raises _ _ Hpk). reflexivity.
Qed.

Lemma sales_loop_run sales : forall cat t g o,
  for_each sales sales_record (Store cat t g o) =
  (let pre := before (sale_overflows cat) sales in
   let acc := accumulate (t, g) (sale_entries cat pre) in
   Store cat (fst acc) (snd acc) (o ++ sale_messages cat pre),
   if existsb (sale_overflows cat) sales then Raise OverflowError else Ok tt).
Proof.
  induction sales as [|r sales IH]; intros cat t g o; simpl.
  - now rewrite app_nil_r.
  - unfold bind. rewrite sales_record_run.
    destruct (sale_overflows cat r) eqn:Hov; simpl.
    + now rewrite app_nil_r.
    + destruct (sale_fields cat r) as [[k cost]|] eqn:Hf.
      * unfold add_sale. simpl. rewrite IH. reflexivity.
      * unfold with_message. simpl. rewrite IH. simpl.
        now rewrite <- app_assoc.
Qed.

Lemma compute_sales_total_run sales cat s :
  compute_sales_total sales cat s =
  (let pre := before (sale_overflows cat) sales in
   let acc := accumulate ([], Float.zero) (sale_entries cat pre) in
   Store cat (fst acc) (snd acc) (stdout s ++ sale_messages cat pre),
   if existsb (sale_overflows cat) sales then Raise OverflowError
   else Ok (accumulate ([], Float.zero) (sale_entries cat sales))).
Proof.
  rewrite compute_sales_total_loop, sales_loop_run. simpl.
  destruct (existsb (sale_overflows cat) sales) eqn:E; [reflexivity|].
  assert (H : before (sale_overflows cat) sales = sales).
  { clear - E. induction sales as [|r sales IH]; simpl in *; auto.
    apply orb_false_iff in E as [E1 E2]. now rewrite E1, IH. }
  rewrite H. now destruct (accumulate _ _).
Qed.

(** ** Accumulating entries *)

Lemma dict_get_set (d : dict) k0 v k :
  dict_get (dict_set d k0 v) k = if key_eqb k0 k then Some v else dict_get d k.
Proof.
  destruct (key_eqb k0 k) eqn:E.
  - rewrite <- (dict_get_congr _ _ _ E). apply dict_get_set_same.
  - now apply dict_get_set_other.
Qed.

Lemma subtotal_congr (d : dict) k k' :
  key_eqb k k' = true -> subtotal d k = subtotal d k'.
Proof. intros H. unfold subtotal. now rewrite (dict_get_congr _ _ _ H). Qed.

Lemma add_all_cons x c cs : add_all x (c :: cs) = add_all (Float.add x c) cs.
Proof. reflexivity. Qed.

Lemma accumulate_cons t g k c es :
  accumulate (t, g) ((k, c) :: es)
  = accumulate (dict_set t k (Float.add (subtotal t k) c), Float.add g c) es.
Proof. reflexivity. Qed.

Lemma accumulate_grand es : forall t g,
  snd (accumulate (t, g) es) = add_all g (map snd es).
Proof.
  induction es as [|[k c] es IH]; intros t g; [reflexivity|].
  rewrite accumulate_cons, IH. reflexivity.
Qed.

Lemma costs_for_absent k es : has_key k es = false -> costs_for k es = [].
Proof.
  unfold has_key, costs_for. induction es as [|[k0 c] es IH]; simpl; auto.
  destruct (key_eqb k0 k); simpl; [discriminate|auto].
Qed.

Lemma accumulate_get es : forall t g k,
  dict_get (fst (accumulate (t, g) es)) k =
  if has_key k es
  then Some (add_all (subtotal t k) (costs_for k es))
  else dict_get t k.
Proof.
  induction es as [|[k0 c] es IH]; intros t g k; [reflexivity|].
  rewrite accumulate_cons, IH.
  unfold has_key, costs_for. cbn [existsb filter fst].
  fold (has_key k es). fold (costs_for k es).
  destruct (key_eqb k0 k) eqn:E; cbn [orb map snd].
  - unfold subtotal at 1. rewrite dict_get_set, E.
    rewrite (subtotal_congr t k0 k E), add_all_cons.
    destruct (has_key k es) eqn:F; [reflexivity|].
    fold (costs_for k es). now rewrite (costs_for_absent k es F).
  - unfold subtotal at 1. rewrite dict_get_set, E.
    destruct (has_key k es); reflexivity.
Qed.

Lemma accumulate_distinct es : forall t g,
  distinct_keys t = true -> distinct_keys (fst (accumulate (t, g) es)) = true.
Proof.
  induction es as [|[k c] es IH]; intros t g H; [exact H|].
  rewrite accumulate_cons. apply IH. now apply distinct_keys_set.
Qed.

Lemma dict_mem_keys (d : dict) k :
  dict_mem d k = existsb (fun k' => key_eqb k' k) (keys d).
Proof.
  unfold dict_mem. induction d as [|[k' v'] d IH]; simpl; auto.
  destruct (key_eqb k' k); auto.
Qed.

Lemma keys_set (d : dict) k v :
  keys (dict_set d k v) = if dict_mem d k then keys d else keys d ++ [k].
Proof.
  unfold dict_mem. induction d as [|[k' v'] d IH]; simpl; auto.
  destruct (key_eqb k' k) eqn:E; simpl; auto.
  rewrite IH. destruct (dict_get d k); reflexivity.
Qed.

Lemma accumulate_keys es : forall t g,
  keys (fst (accumulate (t, g) es)) = first_keys (keys t) (map fst es).
Proof.
  induction es as [|[k c] es IH]; intros t g; [reflexivity|].
  rewrite accumulate_cons, IH, keys_set, dict_mem_keys.
  unfold first_keys. simpl.
  destruct (existsb _ (keys t)); reflexivity.
Qed.

Lemma sale_entries_app cat xs ys :
  sale_entries cat (xs ++ ys) = sale_entries cat xs ++ sale_entries cat ys.
Proof.
  induction xs as [|x xs IH]; simpl; auto.
  destruct (sale_fields cat x); simpl; now rewrite IH.
Qed.

Lemma sale_entries_perm cat xs ys :
  Permutation xs ys -> Permutation (sale_entries cat xs) (sale_entries cat ys).
Proof.
  induction 1 as [|x xs ys _ IH|x y xs|xs ys zs _ IH1 _ IH2]; simpl.
  - constructor.
  - destruct (sale_fields cat x); auto.
  - destruct (sale_fields cat x), (sale_fields cat y); auto. apply perm_swap.
  - now rewrite IH1.
Qed.

Lemma filter_perm {A} (f : A -> bool) xs ys :
  Permutation xs ys -> Permutation (filter f xs) (filter f ys).
Proof.
  induction 1 as [|x xs ys _ IH|x y xs|xs ys zs _ IH1 _ IH2]; simpl.
  - constructor.
  - destruct (f x); auto.
  - destruct (f x), (f y); auto. apply perm_swap.
  - now rewrite IH1.
Qed.

Lemma existsb_perm {A} (f : A -> bool) xs ys :
  Permutation xs ys -> existsb f xs = existsb f ys.
Proof.
  induction 1 as [|x xs ys _ IH|x y xs|xs ys zs _ IH1 _ IH2]; simpl;
    try congruence.
  destruct (f x), (f y); reflexivity.
Qed.

Lemma accumulate_lookup es k :
  dict_get (fst (accumulate ([], Float.zero) es)) k =
  if has_key k es then Some (total (costs_for k es)) else None.
Proof. now rewrite accumulate_get. Qed.

Lemma accumulate_subtotal es k :
  subtotal (fst (accumulate ([], Float.zero) es)) k = total (costs_for k es).
Proof.
  unfold subtotal. rewrite accumulate_lookup.
  destruct (has_key k es) eqn:E; [reflexivity|].
  now rewrite (costs_for_absent k es E).
Qed.

Lemma accumulate_total es :
  snd (accumulate ([], Float.zero) es) = total (map snd es).
Proof. apply accumulate_grand. Qed.

Lemma compute_sales_total_ok sales cat s totals g :
  snd (compute_sales_total sales cat s) = Ok (totals, g) ->
  existsb (sale_overflows cat) sales = false
  /\ (totals, g) = accumulate ([], Float.zero) (sale_entries cat sales).
Proof.
  rewrite compute_sales_total_run. simpl.
  destruct (existsb (sale_overflows cat) sales); [discriminate|].
  intros H. inversion H. auto.
Qed.

Lemma compute_sales_total_safe sales cat s :
  existsb (sale_overflows cat) sales = false ->
  compute_sales_total sales cat s =
  (let acc := accumulate ([], Float.zero) (sale_entries cat sales) in
   Store cat (fst acc) (snd acc) (stdout s ++ sale_messages cat sales),
   Ok (accumulate ([], Float.zero) (sale_entries cat sales))).
Proof.
  intros E. rewrite compute_sales_total_run, E.
  assert (H : before (sale_overflows cat) sales = sales).
  { clear - E. induction sales as [|r sales IH]; simpl in *; auto.
    apply orb_false_iff in E as [E1 E2]. now rewrite E1, IH. }
  now rewrite H.
Qed.

(** ** The grand total and the sum of the subtotals *)

Lemma float_eqb_add_zero (x : float) :
  x <> Float.NaN -> Float.eqb x (Float.add Float.zero x) = true.
Proof.
  intros Hx. unfold Float.eqb, Float.add, Float.zero.
  rewrite eqb_spec, add_spec.
  change (Prim2SF PrimFloat.zero) with (S754_zero false).
  destruct (Prim2SF x) as [sg|sg| |sg m e] eqn:E.
  - destruct sg; reflexivity.
  - destruct sg; reflexivity.
  - elim Hx. apply Prim2SF_inj. now rewrite E.
  - unfold SF64add, SFadd, SFeqb, SFcompare.
    rewrite Z.compare_refl, Pos.compare_cont_refl.
    destruct sg; reflexivity.
Qed.

Lemma accumulate_empty es :
  fst (accumulate ([], Float.zero) es) = [] -> es = [].
Proof.
  destruct es as [|[k c] es]; [reflexivity|]. intros H.
  pose proof (accumulate_lookup ((k, c) :: es) k) as L.
  rewrite H in L. unfold has_key in L. simpl in L.
  rewrite key_eqb_refl in L. discriminate.
Qed.

Lemma accumulate_single es k v :
  fst (accumulate ([], Float.zero) es) = [(k, v)] ->
  costs_for k es = map snd es.
Proof.
  intros H.
  assert (Hall : forall e, In e es -> key_eqb (fst e) k = true).
  { intros e He.
    pose proof (accumulate_lookup es (fst e)) as L. rewrite H in L.
    assert (Hk : has_key (fst e) es = true).
    { apply existsb_exists. exists e. split; [exact He|apply key_eqb_refl]. }
    rewrite Hk in L. simpl in L.
    rewrite key_eqb_sym. destruct (key_eqb k (fst e)); [reflexivity|discriminate]. }
  clear H. unfold costs_for.
  induction es as [|e es IH]; [reflexivity|]. simpl.
  rewrite (Hall e (or_introl eq_refl)). simpl. f_equal.
  apply IH. intros e' He'. apply Hall. now right.
Qed.

(** With a sale of 1e16, a sale of 1.0 under another identifier and the
    return of the first sale, the grand total is 0.0 (the 1.0 is lost when
    it is added to 1e16: that addition rounds) while the subtotals are 0.0
    and 1.0, whose sum is 1.0. *)
Lemma grand_total_differs_from_sum_of_subtotals :
  snd (build_price_catalogue
         [product (text "Vault") (text "1e16"); product (text "Pin") (int 1)]
         fresh)
  = Ok large_catalogue
  /\ snd (compute_sales_total cancelling_sales large_catalogue fresh)
     = Ok ([(SInt 1, 0%float); (SInt 2, 1%float)], 0%float)
  /\ sum_over_keys [(SInt 1, 0%float); (SInt 2, 1%float)] = 1%float
  /\ Float.eqb 0%float (sum_over_keys [(SInt 1, 0%float); (SInt 2, 1%float)])
     = false
  /\ exact_add 10000000000000000%float 1%float = false
  /\ PrimFloat.add 10000000000000000%float 1%float
     = 10000000000000000%float.
Proof. repeat split. Qed.

Lemma subtotal_cons_same k v (d : dict) k' :
  key_eqb k k' = true -> subtotal ((k, v) :: d) k' = v.
Proof. intros H. unfold subtotal. simpl. now rewrite H. Qed.

Lemma subtotal_cons_other k v (d : dict) k' :
  key_eqb k k' = false -> subtotal ((k, v) :: d) k' = subtotal d k'.
Proof. intros H. unfold subtotal. simpl. now rewrite H. Qed.

Lemma exact_add_sum x y a :
  exact_add x y = true -> Float.exact x = Number.Fin a ->
  Float.exact (Float.add x y) = Number.Fin (a + value y)%Qc.
Proof.
  unfold exact_add, value. intros H Hx. rewrite Hx in H.
  destruct (Float.exact y) as [b| | |]; try discriminate.
  now apply number_same_eq in H.
Qed.

Lemma exact_add_value x y :
  exact_add x y = true ->
  value (Float.add x y) = (value x + value y)%Qc.
Proof.
  intros H. unfold value at 1 2.
  destruct (Float.exact x) as [a| | |] eqn:Ex;
    try (unfold exact_add in H; rewrite Ex in H; discriminate).
  now rewrite (exact_add_sum x y a H Ex).
Qed.

Lemma sum_of_values_cons c cs :
  sum_of_values (c :: cs) = (value c + sum_of_values cs)%Qc.
Proof. reflexivity. Qed.

Lemma adds_exactly_sum cs : forall x a,
  adds_exactly x cs = true -> Float.exact x = Number.Fin a ->
  Float.exact (add_all x cs) = Number.Fin (a + sum_of_values cs)%Qc.
Proof.
  induction cs as [|c cs IH]; intros x a H Hx.
  - change (add_all x []) with x. change (sum_of_values []) with (Q2Qc 0).
    rewrite Hx. f_equal. ring.
  - cbn [adds_exactly] in H. apply andb_true_iff in H as [H1 H2].
    rewrite add_all_cons.
    rewrite (IH _ _ H2 (exact_add_sum _ _ _ H1 Hx)).
    rewrite sum_of_values_cons. f_equal. ring.
Qed.

Lemma sum_of_values_set (d : dict) k c :
  exact_add (subtotal d k) c = true ->
  sum_of_values (map snd (dict_set d k (Float.add (subtotal d k) c)))
  = (sum_of_values (map snd d) + value c)%Qc.
Proof.
  induction d as [|[k' v'] d IH]; intros H.
  - apply exact_add_value in H.
    change (subtotal [] k) with Float.zero in *.
    cbn [dict_set map snd]. rewrite sum_of_values_cons, H.
    change (value Float.zero) with (Q2Qc 0).
    change (sum_of_values []) with (Q2Qc 0). ring.
  - cbn [dict_set]. destruct (key_eqb k' k) eqn:E.
    + rewrite (subtotal_cons_same _ _ _ _ E) in *.
      apply exact_add_value in H.
      cbn [map snd]. rewrite !sum_of_values_cons, H. ring.
    + rewrite (subtotal_cons_other _ _ _ _ E) in *.
      cbn [map snd]. rewrite !sum_of_values_cons, (IH H). ring.
Qed.

Lemma accumulates_exactly_total es : forall t g,
  accumulates_exactly (t, g) es = true ->
  Float.exact g = Number.Fin (sum_of_values (map snd t)) ->
  Float.exact (snd (accumulate (t, g) es))
  = Number.Fin (sum_of_values (map snd (fst (accumulate (t, g) es)))).
Proof.
  induction es as [|[k c] es IH]; intros t g H Hg; [exact Hg|].
  cbn [accumulates_exactly fst snd] in H.
  apply andb_true_iff in H as [H H3]. apply andb_true_iff in H as [H1 H2].
  rewrite accumulate_cons. apply IH; [exact H3|].
  now rewrite (exact_add_sum _ _ _ H2 Hg), (sum_of_values_set _ _ _ H1).
Qed.

Lemma subtotals_of_keys (d : dict) :
  distinct_keys d = true -> map (subtotal d) (keys d) = map snd d.
Proof.
  induction d as [|[k v] d IH]; [reflexivity|].
  cbn [distinct_keys]. intros H. apply andb_true_iff in H as [H1 H2].
  apply negb_true_iff in H1.
  cbn [keys map fst snd]. fold (keys d).
  rewrite (subtotal_cons_same _ _ _ _ (key_eqb_refl k)). f_equal.
  rewrite <- (IH H2). apply map_ext_in. intros k' Hk'.
  apply subtotal_cons_other.
  pose proof (dict_mem_false_keys d k H1) as F.
  rewrite Forall_forall in F. now apply F.
Qed.

Lemma sum_over_keys_add_all (d : dict) :
  sum_over_keys d = add_all Float.zero (map (subtotal d) (keys d)).
Proof.
  unfold sum_over_keys, add_all. generalize Float.zero.
  induction (keys d) as [|k ks IH]; intros x; [reflexivity|apply IH].
Qed.

(** [C2] (amended) When [compute_sales_total] returns and no addition
    rounds (each cost added to its subtotal and to the grand total, and
    each subtotal added to the sum of the subtotals, gives a float that
    has the value of the sum of two finite numbers), the grand total has
    the value of the sum over the keys of their subtotals.  When the
    mapping returned has one key at most, the grand total is the subtotal
    of that key, bit for bit, whatever was rounded, and it compares equal
    to that sum (0.0 plus the subtotal, or 0.0 when there is no key)
    unless it is [nan].  Otherwise the grand total and the subtotals round
    differently, and the two may differ. *)
Theorem grand_total_is_sum_of_subtotals_unless_rounded sales cat s s' totals g :
  compute_sales_total sales cat s = (s', Ok (totals, g)) ->
  (accumulates_exactly ([], Float.zero) (sale_entries cat sales) = true ->
   adds_exactly Float.zero (map snd totals) = true ->
   Float.exact g = Float.exact (sum_over_keys totals))
  /\ ((List.length totals <= 1)%nat ->
      (forall k, dict_mem totals k = true -> subtotal totals k = g)
      /\ sum_over_keys totals = PrimFloat.add 0%float g
      /\ (g <> Float.NaN -> Float.eqb g (sum_over_keys totals) = true)).
Proof.
  intros H.
  assert (H' : snd (compute_sales_total sales cat s) = Ok (totals, g))
    by now rewrite H.
  apply compute_sales_total_ok in H' as [_ H'].
  assert (Ht : totals = fst (accumulate ([], Float.zero)
                                (sale_entries cat sales)))
    by now rewrite <- H'.
  assert (Hg : g = snd (accumulate ([], Float.zero)
                          (sale_entries cat sales)))
    by now rewrite <- H'.
  split.
  - intros Hloop Hsum.
    rewrite sum_over_keys_add_all, subtotals_of_keys
      by (rewrite Ht; now apply accumulate_distinct).
    rewrite (adds_exactly_sum _ Float.zero (Q2Qc 0) Hsum eq_refl).
    rewrite Hg, Ht.
    etransitivity;
      [exact (accumulates_exactly_total _ [] Float.zero Hloop eq_refl)|].
    f_equal. symmetry. apply Qcplus_0_l.
  - intros Hlen. rewrite accumulate_total in Hg.
    assert (Hsum : (forall k, dict_mem totals k = true -> subtotal totals k = g)
                   /\ sum_over_keys totals = PrimFloat.add 0%float g).
    { destruct totals as [|[k0 v] [|e rest]]; [| |simpl in Hlen; lia].
      - symmetry in Ht. apply accumulate_empty in Ht.
        rewrite Ht in Hg. subst g. split; [discriminate|reflexivity].
      - symmetry in Ht. pose proof (accumulate_single _ _ _ Ht) as Hc.
        assert (Hv : v = g).
        { rewrite Hg, <- Hc, <- accumulate_subtotal, Ht.
          unfold subtotal. simpl. now rewrite key_eqb_refl. }
        subst v. split.
        + intros k Hk. unfold dict_mem, subtotal in *. simpl in *.
          destruct (key_eqb k0 k); [reflexivity|discriminate].
        + unfold sum_over_keys, subtotal. simpl. now rewrite key_eqb_refl. }
    destruct Hsum as [H1 H2]. repeat split; auto.
    intros Hnan. rewrite H2. now apply float_eqb_add_zero.
Qed.

Lemma grand_total_is_sum_of_subtotals_unless_rounded_witness :
  snd (compute_sales_total mixed_sales widget_catalogue fresh)
  = Ok ([(SInt 1, 15%float); (SStr "B2", 2.5%float)], 17.5%float)
  /\ sum_over_keys [(SInt 1, 15%float); (SStr "B2", 2.5%float)] = 17.5%float
  /\ Float.exact 17.5%float
     = Float.exact (sum_over_keys [(SInt 1, 15%float); (SStr "B2", 2.5%float)])
  /\ sum_over_keys [(SInt 1, 15%float)] = 15%float
  /\ Float.eqb 15%float (sum_over_keys [(SInt 1, 15%float)]) = true.
Proof.
  split; [reflexivity|split; [reflexivity|split]].
  - apply (proj1 (grand_total_is_sum_of_subtotals_unless_rounded mixed_sales
                    widget_catalogue fresh
                    (fst (compute_sales_total mixed_sales widget_catalogue
                            fresh))
                    [(SInt 1, 15%float); (SStr "B2", 2.5%float)] 17.5%float
                    eq_refl)); vm_compute; reflexivity.
  - destruct (proj2 (grand_total_is_sum_of_subtotals_unless_rounded
                       [sale (int 1) (text "Widget") (int 4); sale_of_gadget;
                        sale (VScalar (SFloat 1%float)) (text "Widget")
                          (text "2")]
                       widget_catalogue fresh
                       (Store widget_catalogue [(SInt 1, 15%float)] 15%float
                          [ProductNotFound (text "Gadget")])
                       [(SInt 1, 15%float)] 15%float eq_refl) (le_n 1))
      as (_ & H1 & H2).
    split; [exact H1|].
    apply H2. apply float_same_neq. reflexivity.
Defined.

(** * Further properties *)

(** ** [compute_sales_total]: when it returns, and what it returns *)

(** [X1] [compute_sales_total] returns a result exactly when no record
    overflows, and raises [OverflowError] exactly when one does: a record
    with its three fields whose quantity is an infinite float, or whose
    product is catalogued and whose integer quantity is outside the float
    range. *)
Theorem aggregation_returns_iff_no_overflow sales cat s :
  ((exists totals g, snd (compute_sales_total sales cat s) = Ok (totals, g))
   <-> (forall record, In record sales -> sale_overflows cat record = false))
  /\ (snd (compute_sales_total sales cat s) = Raise OverflowError
      <-> exists record, In record sales /\ sale_overflows cat record = true).
Proof.
  rewrite compute_sales_total_run. simpl.
  destruct (existsb (sale_overflows cat) sales) eqn:E.
  - apply existsb_exists in E. split; split.
    + intros (totals & g & H). discriminate.
    + intros H. destruct E as (r & Hr & Ho). rewrite (H r Hr) in Ho.
      discriminate.
    + intros _. exact E.
    + reflexivity.
  - split; split.
    + intros _ record Hr.
      destruct (sale_overflows cat record) eqn:F; auto.
      assert (X : existsb (sale_overflows cat) sales = true)
        by (apply existsb_exists; eauto).
      congruence.
    + intros _. destruct (accumulate _ _) as [totals g]. eauto.
    + discriminate.
    + intros H. apply existsb_exists in H. congruence.
Qed.

(** [X2] When [compute_sales_total] returns, the grand total is what the
    costs of the records that are valid and whose product is catalogued
    give when they are added to 0.0 one after the other, in input order,
    each addition rounding to binary64; the other records add nothing. *)
Theorem grand_total_is_sum_of_costs sales cat s totals g :
  snd (compute_sales_total sales cat s) = Ok (totals, g) ->
  g = fold_left PrimFloat.add (map snd (sale_entries cat sales)) 0%float.
Proof.
  intros H. apply compute_sales_total_ok in H as [_ H].
  change (g = total (map snd (sale_entries cat sales))).
  rewrite <- accumulate_total, <- H. reflexivity.
Qed.

Lemma grand_total_is_sum_of_costs_witness :
  map snd (sale_entries large_catalogue cancelling_sales)
  = [10000000000000000%float; 1%float; (-10000000000000000)%float]
  /\ 0%float
     = fold_left PrimFloat.add
         (map snd (sale_entries large_catalogue cancelling_sales)) 0%float.
Proof.
  split; [reflexivity|].
  apply (grand_total_is_sum_of_costs cancelling_sales large_catalogue fresh
           [(SInt 1, 0%float); (SInt 2, 1%float)]).
  reflexivity.
Defined.

(** [X3] When [compute_sales_total] returns, an identifier is a key of the
    per-sale mapping exactly when a valid record with a catalogued product
    carries it (up to key equality: [True], [1] and [1.0] are one
    identifier), and its subtotal is what the costs of those records give
    when they are added to 0.0 one after the other, in input order, each
    addition rounding to binary64. *)
Theorem subtotal_is_sum_of_costs_of_identifier sales cat s totals g k :
  snd (compute_sales_total sales cat s) = Ok (totals, g) ->
  dict_get totals k =
  if has_key k (sale_entries cat sales)
  then Some (fold_left PrimFloat.add (costs_for k (sale_entries cat sales))
               0%float)
  else None.
Proof.
  intros H. apply compute_sales_total_ok in H as [_ H].
  change (dict_get totals k =
          if has_key k (sale_entries cat sales)
          then Some (total (costs_for k (sale_entries cat sales))) else None).
  rewrite <- accumulate_lookup, <- H. reflexivity.
Qed.

Lemma subtotal_is_sum_of_costs_of_identifier_witness :
  costs_for (SFloat 1%float) (sale_entries widget_catalogue mixed_sales)
  = [10%float; 5%float]
  /\ dict_get [(SInt 1, 15%float); (SStr "B2", 2.5%float)] (SFloat 1%float)
     = Some 15%float.
Proof.
  split; [reflexivity|].
  exact (subtotal_is_sum_of_costs_of_identifier mixed_sales widget_catalogue
           fresh [(SInt 1, 15%float); (SStr "B2", 2.5%float)] 17.5%float
           (SFloat 1%float) eq_refl).
Defined.

(** [X4] When [compute_sales_total] returns, no two keys of the per-sale
    mapping are equal, and the keys are the identifiers of the
    contributing records in order of first appearance, each as it was
    first written. *)
Theorem identifiers_are_merged_in_first_spelling sales cat s totals g :
  snd (compute_sales_total sales cat s) = Ok (totals, g) ->
  distinct_keys totals = true
  /\ keys totals = first_keys [] (map fst (sale_entries cat sales)).
Proof.
  intros H. apply compute_sales_total_ok in H as [_ H].
  assert (Ht : totals = fst (accumulate ([], Float.zero)
                                (sale_entries cat sales)))
    by now rewrite <- H.
  subst totals. split.
  - now apply accumulate_distinct.
  - apply accumulate_keys.
Qed.

Lemma identifiers_are_merged_in_first_spelling_witness :
  keys [(SInt 1, 15%float); (SStr "B2", 2.5%float)] = [SInt 1; SStr "B2"]
  /\ map fst (sale_entries widget_catalogue mixed_sales)
     = [SInt 1; SBool true; SStr "B2"].
Proof.
  split; [|reflexivity].
  exact (proj2 (identifiers_are_merged_in_first_spelling mixed_sales
                  widget_catalogue fresh
                  [(SInt 1, 15%float); (SStr "B2", 2.5%float)] 17.5%float
                  eq_refl)).
Defined.

Lemma in_sale_messages cat sales m :
  In m (sale_messages cat sales) ->
  exists r, In r sales /\ sale_fields cat r = None /\ m = sale_message cat r.
Proof.
  induction sales as [|r sales IH]; simpl; [tauto|].
  destruct (sale_fields cat r) eqn:E; simpl.
  - intros H. destruct (IH H) as (r' & H1 & H2). eauto.
  - intros [<-|H]; [eauto|]. destruct (IH H) as (r' & H1 & H2). eauto.
Qed.

Lemma sale_message_not_found cat r name :
  sale_message cat r = ProductNotFound name ->
  subscript r "Product" = Ok name /\ contains cat name = Ok false.
Proof.
  unfold sale_message.
  destruct (subscript r "SALE_ID"); [|discriminate].
  destruct (subscript r "Product") as [product_name|]; [|discriminate].
  destruct (subscript r "Quantity") as [q|]; [|discriminate].
  destruct (py_int q); [|discriminate].
  destruct (contains cat product_name) as [[|]|] eqn:E; try discriminate.
  intros H. inversion H; subst. auto.
Qed.

Lemma sale_message_invalid cat r r' :
  sale_message cat r = InvalidSalesRecord r' -> r' = r.
Proof.
  unfold sale_message.
  destruct (subscript r "SALE_ID"); [|congruence].
  destruct (subscript r "Product") as [product_name|]; [|congruence].
  destruct (subscript r "Quantity") as [q|]; [|congruence].
  destruct (py_int q); [|congruence].
  destruct (contains cat product_name) as [[|]|]; congruence.
Qed.

Lemma messages_and_entries cat sales :
  (List.length (sale_messages cat sales)
   + List.length (sale_entries cat sales))%nat = List.length sales.
Proof.
  induction sales as [|r sales IH]; simpl; auto.
  destruct (sale_fields cat r); simpl; lia.
Qed.

(** [X5] When [compute_sales_total] returns, what it printed is one message
    for each record that added nothing, in input order; a record either
    adds its cost or is reported, never both and never neither.
    "Product not found" is printed only for a name that is not a key of
    the catalogue, and "Invalid sales record" only for a record of the
    input. *)
Theorem skipped_sales_are_reported_in_order sales cat s totals g :
  snd (compute_sales_total sales cat s) = Ok (totals, g) ->
  stdout (fst (compute_sales_total sales cat s))
  = stdout s ++ sale_messages cat sales
  /\ (List.length (sale_messages cat sales)
      + List.length (sale_entries cat sales))%nat = List.length sales
  /\ (forall name, In (ProductNotFound name) (sale_messages cat sales) ->
        contains cat name = Ok false)
  /\ (forall r, In (InvalidSalesRecord r) (sale_messages cat sales) ->
        In r sales)
  /\ (forall p, ~ In (InvalidProductEntry p) (sale_messages cat sales)).
Proof.
  intros H. apply compute_sales_total_ok in H as [E _].
  rewrite (compute_sales_total_safe sales cat s E). simpl.
  repeat split.
  - apply messages_and_entries.
  - intros name Hin.
    destruct (in_sale_messages _ _ _ Hin) as (r & _ & _ & Hm).
    symmetry in Hm. now apply sale_message_not_found in Hm.
  - intros r Hin.
    destruct (in_sale_messages _ _ _ Hin) as (r' & Hr & _ & Hm).
    symmetry in Hm. apply sale_message_invalid in Hm. now subst.
  - intros p Hin.
    destruct (in_sale_messages _ _ _ Hin) as (r & _ & _ & Hm).
    unfold sale_message in Hm.
    destruct (subscript r "SALE_ID"); [|discriminate].
    destruct (subscript r "Product") as [product_name|]; [|discriminate].
    destruct (subscript r "Quantity") as [q|]; [|discriminate].
    destruct (py_int q); [|discriminate].
    destruct (contains cat product_name) as [[|]|]; discriminate.
Qed.

Lemma skipped_sales_are_reported_in_order_witness :
  stdout (fst (compute_sales_total mixed_sales widget_catalogue fresh))
  = [ProductNotFound (text "Gadget"); InvalidSalesRecord (VList [int 1]);
     InvalidSalesRecord (sale (int 7) (text "Widget") (text "many"))].
Proof.
  exact (proj1 (skipped_sales_are_reported_in_order mixed_sales
                  widget_catalogue fresh
                  [(SInt 1, 15%float); (SStr "B2", 2.5%float)] 17.5%float
                  eq_refl)).
Defined.

(** ** [compute_sales_total]: order and concatenation of the records *)

(** [X6] Rearranging the records changes neither whether
    [compute_sales_total] returns nor which identifiers are keys of the
    per-sale mapping, and the same costs are added to the grand total and
    to each subtotal; they are added in the new order, so that the totals
    may round differently: with a price of 1e16 and a price of 1.0, the
    grand total is 1e16 when the large sale comes first and 1e16 + 2 when
    it comes last. *)
Theorem rearranged_sales_add_the_same_costs sales sales' cat s s' totals g :
  Permutation sales sales' ->
  snd (compute_sales_total sales cat s) = Ok (totals, g) ->
  (exists totals' g',
     snd (compute_sales_total sales' cat s') = Ok (totals', g')
     /\ (forall k, dict_mem totals' k = dict_mem totals k)
     /\ g = total (map snd (sale_entries cat sales))
     /\ g' = total (map snd (sale_entries cat sales'))
     /\ Permutation (map snd (sale_entries cat sales))
                    (map snd (sale_entries cat sales'))
     /\ forall k,
          subtotal totals k = total (costs_for k (sale_entries cat sales))
          /\ subtotal totals' k = total (costs_for k (sale_entries cat sales'))
          /\ Permutation (costs_for k (sale_entries cat sales))
                         (costs_for k (sale_entries cat sales')))
  /\ Permutation vault_then_pins pins_then_vault
  /\ snd (compute_sales_total vault_then_pins large_catalogue s)
     = Ok ([(SInt 1, 10000000000000000%float)], 10000000000000000%float)
  /\ snd (compute_sales_total pins_then_vault large_catalogue s)
     = Ok ([(SInt 1, 10000000000000002%float)], 10000000000000002%float).
Proof.
  intros Hp H. split.
  - apply compute_sales_total_ok in H as [E H].
    rewrite (existsb_perm _ _ _ Hp) in E.
    rewrite (compute_sales_total_safe sales' cat s' E). simpl.
    pose proof (sale_entries_perm cat _ _ Hp) as He.
    assert (Ht : totals = fst (accumulate ([], Float.zero)
                                  (sale_entries cat sales)))
      by now rewrite <- H.
    assert (Hg : g = snd (accumulate ([], Float.zero)
                            (sale_entries cat sales)))
      by now rewrite <- H.
    exists (fst (accumulate ([], Float.zero) (sale_entries cat sales'))),
      (snd (accumulate ([], Float.zero) (sale_entries cat sales'))).
    rewrite <- surjective_pairing. repeat split.
    + intros k. unfold dict_mem. rewrite Ht, !accumulate_lookup.
      unfold has_key. rewrite (existsb_perm _ _ _ He).
      destruct (existsb _ (sale_entries cat sales')); reflexivity.
    + rewrite Hg. apply accumulate_total.
    + apply accumulate_total.
    + now apply Permutation_map.
    + rewrite Ht. apply accumulate_subtotal.
    + apply accumulate_subtotal.
    + unfold costs_for. apply Permutation_map. now apply filter_perm.
  - repeat split.
    unfold vault_then_pins, pins_then_vault.
    eapply perm_trans; [apply perm_swap|].
    apply perm_skip. apply perm_swap.
Qed.

Lemma rearranged_sales_add_the_same_costs_witness :
  (exists totals' g',
     snd (compute_sales_total pins_then_vault large_catalogue fresh)
     = Ok (totals', g')
     /\ (forall k, dict_mem totals' k
                   = dict_mem [(SInt 1, 10000000000000000%float)] k)
     /\ 10000000000000000%float
        = total (map snd (sale_entries large_catalogue vault_then_pins))
     /\ g' = total (map snd (sale_entries large_catalogue pins_then_vault))
     /\ Permutation (map snd (sale_entries large_catalogue vault_then_pins))
                    (map snd (sale_entries large_catalogue pins_then_vault))
     /\ forall k,
          subtotal [(SInt 1, 10000000000000000%float)] k
          = total (costs_for k (sale_entries large_catalogue vault_then_pins))
          /\ subtotal totals' k
             = total (costs_for k
                        (sale_entries large_catalogue pins_then_vault))
          /\ Permutation
               (costs_for k (sale_entries large_catalogue vault_then_pins))
               (costs_for k (sale_entries large_catalogue pins_then_vault)))
  /\ Permutation vault_then_pins pins_then_vault
  /\ snd (compute_sales_total vault_then_pins large_catalogue fresh)
     = Ok ([(SInt 1, 10000000000000000%float)], 10000000000000000%float)
  /\ snd (compute_sales_total pins_then_vault large_catalogue fresh)
     = Ok ([(SInt 1, 10000000000000002%float)], 10000000000000002%float).
Proof.
  apply (rearranged_sales_add_the_same_costs vault_then_pins pins_then_vault
           large_catalogue fresh fresh
           [(SInt 1, 10000000000000000%float)] 10000000000000000%float).
  - unfold vault_then_pins, pins_then_vault.
    eapply perm_trans; [apply perm_swap|].
    apply perm_skip. apply perm_swap.
  - reflexivity.
Defined.

(** [X7] The result on two lists of records put end to end continues the
    result on the first: the costs of the second list are added, in
    order, to the grand total and to the subtotals the first list gave
    (an absent identifier starting at 0.0), and an identifier is a key
    when it is a key for the first list or a record of the second list
    contributes to it. *)
Theorem aggregation_of_concatenation xs ys cat s totals g :
  snd (compute_sales_total (xs ++ ys) cat s) = Ok (totals, g) ->
  exists tx gx,
    snd (compute_sales_total xs cat s) = Ok (tx, gx)
    /\ g = fold_left PrimFloat.add (map snd (sale_entries cat ys)) gx
    /\ forall k,
         subtotal totals k
         = fold_left PrimFloat.add (costs_for k (sale_entries cat ys))
             (subtotal tx k)
         /\ dict_mem totals k
            = dict_mem tx k || has_key k (sale_entries cat ys).
Proof.
  intros H. apply compute_sales_total_ok in H as [E H].
  rewrite existsb_app in E. apply orb_false_iff in E as [Ex Ey].
  rewrite (compute_sales_total_safe xs cat s Ex). simpl.
  rewrite sale_entries_app in H. unfold accumulate in H.
  rewrite fold_left_app in H.
  fold (accumulate ([], Float.zero) (sale_entries cat xs)) in H.
  destruct (accumulate ([], Float.zero) (sale_entries cat xs)) as [tx gx].
  fold (accumulate (tx, gx) (sale_entries cat ys)) in H.
  exists tx, gx. split; [reflexivity|].
  assert (Ht : totals = fst (accumulate (tx, gx) (sale_entries cat ys)))
    by now rewrite <- H.
  assert (Hg : g = snd (accumulate (tx, gx) (sale_entries cat ys)))
    by now rewrite <- H.
  split; [rewrite Hg; apply accumulate_grand|].
  intros k. unfold dict_mem. unfold subtotal at 1.
  rewrite Ht, accumulate_get.
  destruct (has_key k (sale_entries cat ys)) eqn:F.
  - split; [reflexivity|now rewrite orb_true_r].
  - rewrite (costs_for_absent _ _ F), orb_false_r. split; reflexivity.
Qed.

Lemma aggregation_of_concatenation_witness :
  snd (compute_sales_total (mixed_sales ++ returned_widgets) widget_catalogue
         fresh)
  = Ok ([(SInt 1, 5%float); (SStr "B2", 2.5%float)], 7.5%float)
  /\ exists tx gx,
       snd (compute_sales_total mixed_sales widget_catalogue fresh)
       = Ok (tx, gx)
       /\ 7.5%float
          = fold_left PrimFloat.add
              (map snd (sale_entries widget_catalogue returned_widgets)) gx
       /\ forall k,
            subtotal [(SInt 1, 5%float); (SStr "B2", 2.5%float)] k
            = fold_left PrimFloat.add
                (costs_for k (sale_entries widget_catalogue returned_widgets))
                (subtotal tx k)
            /\ dict_mem [(SInt 1, 5%float); (SStr "B2", 2.5%float)] k
               = dict_mem tx k
                 || has_key k (sale_entries widget_catalogue returned_widgets).
Proof.
  split; [reflexivity|].
  apply (aggregation_of_concatenation mixed_sales returned_widgets
           widget_catalogue fresh).
  reflexivity.
Defined.

(** ** [build_price_catalogue]: when it returns, and what it prints *)

Lemma product_entry_run product s :
  product_entry product s =
  if product_overflows product then (s, Raise OverflowError)
  else match product_fields product with
       | Some (k, price) => (add_product s k price, Ok tt)
       | None => (with_message s (InvalidProductEntry product), Ok tt)
       end.
Proof.
  destruct (product_fields product) as [[k price]|] eqn:E.
  - rewrite (product_entry_valid product k price s E).
    unfold product_fields, product_overflows in *.
    destruct (subscript product "title"); [|reflexivity].
    destruct (subscript product "price") as [p|]; [|reflexivity].
    destruct (py_float p); [reflexivity|discriminate].
  - unfold product_fields, product_overflows, product_entry in *.
    destruct (subscript product "title") as [title|e] eqn:Ht.
    2:{ run_stmt. destruct (subscript_raises _ _ _ Ht); subst; reflexivity. }
    destruct (subscript product "price") as [p|e] eqn:Hp.
    2:{ run_stmt. destruct (subscript_raises _ _ _ Hp); subst; reflexivity. }
    destruct (py_float p) as [x|e] eqn:Hx.
    + destruct (hashable title) as [k|e] eqn:Hk; [discriminate|].
      run_stmt. rewrite Hx, Hk, (hashable_raises _ _ Hk). reflexivity.
    + destruct (py_float_raises _ _ Hx) as [->|[->| ->]];
        run_stmt; rewrite Hx; destruct s; reflexivity.
Qed.

Lemma before_all {A} (f : A -> bool) xs :
  existsb f xs = false -> before f xs = xs.
Proof.
  induction xs as [|x xs IH]; simpl; auto.
  intros E. apply orb_false_iff in E as [E1 E2]. now rewrite E1, IH.
Qed.

Lemma build_loop_run products : forall c t g o,
  for_each products product_entry (Store c t g o) =
  (let pre := before product_overflows products in
   Store (write_all c (valid_entries pre)) t g (o ++ product_messages pre),
   if existsb product_overflows products then Raise OverflowError else Ok tt).
Proof.
  unfold product_messages.
  induction products as [|p products IH]; intros c t g o; simpl.
  - now rewrite app_nil_r.
  - unfold bind. rewrite product_entry_run.
    destruct (product_overflows p) eqn:Hov; simpl.
    + now rewrite app_nil_r.
    + unfold is_invalid at 1.
      destruct (product_fields p) as [[k price]|] eqn:Hf.
      * unfold add_product. simpl. rewrite IH. reflexivity.
      * unfold with_message. simpl. rewrite IH. simpl.
        now rewrite <- app_assoc.
Qed.

Lemma build_price_catalogue_run products s :
  build_price_catalogue products s =
  (let pre := before product_overflows products in
   Store (write_all [] (valid_entries pre)) (sale_totals s) (grand_total s)
         (stdout s ++ product_messages pre),
   if existsb product_overflows products then Raise OverflowError
   else Ok (write_all [] (valid_entries products))).
Proof.
  unfold build_price_catalogue. run_stmt. rewrite build_loop_run. simpl.
  destruct (existsb product_overflows products) eqn:E; [reflexivity|].
  now rewrite (before_all _ _ E).
Qed.

(** [X8] [build_price_catalogue] returns a catalogue exactly when no record
    overflows, and raises [OverflowError] exactly when one does: a record
    with a title and a price whose price is an integer outside the float
    range. *)
Theorem catalogue_is_built_iff_no_overflow products s :
  ((exists cat, snd (build_price_catalogue products s) = Ok cat)
   <-> (forall p, In p products -> product_overflows p = false))
  /\ (snd (build_price_catalogue products s) = Raise OverflowError
      <-> exists p, In p products /\ product_overflows p = true).
Proof.
  rewrite build_price_catalogue_run. simpl.
  destruct (existsb product_overflows products) eqn:E.
  - apply existsb_exists in E. split; split.
    + intros (cat & H). discriminate.
    + intros H. destruct E as (r & Hr & Ho). rewrite (H r Hr) in Ho.
      discriminate.
    + intros _. exact E.
    + reflexivity.
  - split; split.
    + intros _ p Hp.
      destruct (product_overflows p) eqn:F; auto.
      assert (X : existsb product_overflows products = true)
        by (apply existsb_exists; eauto).
      congruence.
    + intros _. eauto.
    + discriminate.
    + intros H. apply existsb_exists in H. congruence.
Qed.

(** [X9] Whether it returns or raises, [build_price_catalogue] leaves in the
    store the catalogue of the records that come before the first
    overflowing one, has printed one "Invalid product entry" message for
    each invalid record among them, in input order, and has touched
    neither the per-sale mapping nor the grand total of the store. *)
Theorem invalid_products_are_reported_in_order products s :
  let pre := before product_overflows products in
  let s' := fst (build_price_catalogue products s) in
  stdout s' = stdout s ++ map InvalidProductEntry (filter is_invalid pre)
  /\ catalogue s' = write_all [] (valid_entries pre)
  /\ sale_totals s' = sale_totals s
  /\ grand_total s' = grand_total s
  /\ (List.length (filter is_invalid pre)
      + List.length (valid_entries pre))%nat = List.length pre.
Proof.
  cbv zeta. rewrite build_price_catalogue_run. simpl. repeat split.
  induction (before product_overflows products) as [|p l IH]; simpl; auto.
  unfold is_invalid at 1. destruct (product_fields p); simpl; lia.
Qed.

(** ** [build_price_catalogue]: keys, lookups and concatenation *)

Lemma last_value_from k es : forall acc,
  fold_left (fun acc e => if key_eqb (fst e) k then Some (snd e) else acc)
            es acc
  = match last_value k es with Some v => Some v | None => acc end.
Proof.
  unfold last_value.
  induction es as [|[k0 v0] es IH]; intros acc; simpl; auto.
  rewrite IH. rewrite (IH (if key_eqb k0 k then Some v0 else None)).
  destruct (fold_left _ es None); auto.
  destruct (key_eqb k0 k); reflexivity.
Qed.

Lemma write_all_get es : forall d k,
  dict_get (write_all d es) k
  = match last_value k es with Some v => Some v | None => dict_get d k end.
Proof.
  induction es as [|[k0 v0] es IH]; intros d k; [reflexivity|].
  change (write_all d ((k0, v0) :: es)) with (write_all (dict_set d k0 v0) es).
  rewrite IH. unfold last_value at 2. simpl. rewrite last_value_from.
  destruct (last_value k es); auto.
  rewrite dict_get_set. destruct (key_eqb k0 k); reflexivity.
Qed.

Lemma last_value_has_key k es :
  has_key k es = match last_value k es with Some _ => true | None => false end.
Proof.
  unfold has_key.
  induction es as [|[k0 v0] es IH]; [reflexivity|].
  unfold last_value. simpl. rewrite last_value_from, IH.
  destruct (last_value k es); [apply orb_true_r|].
  destruct (key_eqb k0 k); reflexivity.
Qed.

Lemma write_all_distinct_keys es : forall d,
  distinct_keys d = true -> distinct_keys (write_all d es) = true.
Proof.
  induction es as [|[k v] es IH]; intros d H; [exact H|].
  apply (IH (dict_set d k v)). now apply distinct_keys_set.
Qed.

Lemma write_all_keys es : forall d,
  keys (write_all d es) = first_keys (keys d) (map fst es).
Proof.
  induction es as [|[k v] es IH]; intros d; [reflexivity|].
  change (write_all d ((k, v) :: es)) with (write_all (dict_set d k v) es).
  rewrite IH, keys_set, dict_mem_keys. unfold first_keys. simpl.
  destruct (existsb _ (keys d)); reflexivity.
Qed.

Lemma build_price_catalogue_returns products s cat :
  snd (build_price_catalogue products s) = Ok cat ->
  existsb product_overflows products = false.
Proof.
  rewrite build_price_catalogue_run. simpl.
  destruct (existsb product_overflows products); [discriminate|reflexivity].
Qed.

(** [X10] When [build_price_catalogue] returns, no two keys of the catalogue
    are equal; a title is a key exactly when a valid record carries it, so
    that the titles of invalid records alone never appear; a lookup gives
    the price of the last valid record with that title; and the keys stand
    in order of first appearance, each as it was first written. *)
Theorem catalogue_keys_are_the_valid_titles products s cat :
  snd (build_price_catalogue products s) = Ok cat ->
  distinct_keys cat = true
  /\ (forall k, dict_mem cat k = has_key k (valid_entries products))
  /\ (forall k, dict_get cat k = last_value k (valid_entries products))
  /\ keys cat = first_keys [] (map fst (valid_entries products)).
Proof.
  intros H. apply build_price_catalogue_ok in H. subst cat.
  assert (Hget : forall k, dict_get (write_all [] (valid_entries products)) k
                           = last_value k (valid_entries products)).
  { intros k. rewrite write_all_get.
    destruct (last_value k (valid_entries products)); reflexivity. }
  repeat split.
  - now apply write_all_distinct_keys.
  - intros k. unfold dict_mem. now rewrite Hget, last_value_has_key.
  - exact Hget.
  - apply write_all_keys.
Qed.

Lemma catalogue_keys_are_the_valid_titles_witness :
  snd (build_price_catalogue repriced_products fresh)
  = Ok [(SStr "A", 3%float); (SStr "B", 2%float)]
  /\ map fst (valid_entries repriced_products) = [SStr "A"; SStr "B"; SStr "A"]
  /\ last_value (SStr "A") (valid_entries repriced_products) = Some 3%float
  /\ keys [(SStr "A", 3%float); (SStr "B", 2%float)]
     = first_keys [] (map fst (valid_entries repriced_products)).
Proof.
  split; [reflexivity|split; [reflexivity|split; [reflexivity|]]].
  apply (catalogue_keys_are_the_valid_titles repriced_products fresh
           [(SStr "A", 3%float); (SStr "B", 2%float)]).
  reflexivity.
Defined.

(** [X11] The catalogue of two product lists put end to end is the catalogue of
    the first overridden by the catalogue of the second: a lookup answers
    with the second catalogue when it has the title, and with the first
    otherwise. *)
Theorem catalogue_of_concatenation xs ys s cat :
  snd (build_price_catalogue (xs ++ ys) s) = Ok cat ->
  exists cx cy,
    snd (build_price_catalogue xs s) = Ok cx
    /\ snd (build_price_catalogue ys s) = Ok cy
    /\ forall k,
         dict_get cat k
         = match dict_get cy k with
           | Some v => Some v
           | None => dict_get cx k
           end.
Proof.
  intros H. pose proof (build_price_catalogue_returns _ _ _ H) as E.
  apply build_price_catalogue_ok in H. subst cat.
  rewrite existsb_app in E. apply orb_false_iff in E as [Ex Ey].
  exists (write_all [] (valid_entries xs)), (write_all [] (valid_entries ys)).
  rewrite !build_price_catalogue_run. simpl. rewrite Ex, Ey.
  repeat split. intros k.
  rewrite valid_entries_app, write_all_app, !write_all_get.
  destruct (last_value k (valid_entries ys)); reflexivity.
Qed.

Lemma catalogue_of_concatenation_witness :
  exists cx cy,
    snd (build_price_catalogue widget_products fresh) = Ok cx
    /\ snd (build_price_catalogue repriced_products fresh) = Ok cy
    /\ forall k,
         dict_get
           (write_all [] (valid_entries (widget_products ++ repriced_products)))
           k
         = match dict_get cy k with
           | Some v => Some v
           | None => dict_get cx k
           end.
Proof.
  apply (catalogue_of_concatenation widget_products repriced_products fresh).
  reflexivity.
Defined.

(** ** Records that lack a field, and the order of the checks *)

Lemma subscript_object v name :
  (exists e, subscript v name = Raise e)
  <-> is_object v = false
      \/ exists fields, v = VDict fields /\ field name fields = None.
Proof.
  destruct v as [a|items|fields]; simpl.
  - split; [auto|eauto].
  - split; [auto|eauto].
  - destruct (field name fields) as [x|] eqn:E; split.
    + intros [e H]. discriminate.
    + intros [H|(f & H & H')]; [discriminate|]. inversion H; subst.
      congruence.
    + intros _. right. eauto.
    + eauto.
Qed.

(** [X12] A sale record that is not an object, or that lacks one of [SALE_ID],
    [Product] and [Quantity], is skipped with an "Invalid sales record"
    message whatever its other fields hold; a product record that is not
    an object, or that lacks [title] or [price], is skipped with an
    "Invalid product entry" message.  Neither changes anything else. *)
Theorem records_lacking_a_field_are_skipped v s :
  ((exists e, subscript v "SALE_ID" = Raise e)
   \/ (exists e, subscript v "Product" = Raise e)
   \/ (exists e, subscript v "Quantity" = Raise e) ->
   sales_record v s = (with_message s (InvalidSalesRecord v), Ok tt))
  /\ ((exists e, subscript v "title" = Raise e)
      \/ (exists e, subscript v "price" = Raise e) ->
      product_entry v s = (with_message s (InvalidProductEntry v), Ok tt)).
Proof.
  split.
  - intros H. destruct s as [c t g o]. rewrite sales_record_run.
    unfold sale_overflows, sale_fields, sale_message.
    destruct (subscript v "SALE_ID"); [|reflexivity].
    destruct (subscript v "Product"); [|reflexivity].
    destruct (subscript v "Quantity"); [|reflexivity].
    destruct H as [[e H]|[[e H]|[e H]]]; discriminate.
  - intros H. rewrite product_entry_run.
    unfold product_overflows, product_fields.
    destruct (subscript v "title"); [|reflexivity].
    destruct (subscript v "price"); [|reflexivity].
    destruct H as [[e H]|[e H]]; discriminate.
Qed.

Lemma records_lacking_a_field_are_skipped_witness :
  sales_record sale_without_product widget_store
  = (with_message widget_store (InvalidSalesRecord sale_without_product),
     Ok tt).
Proof.
  apply (records_lacking_a_field_are_skipped sale_without_product widget_store).
  right; left. exists KeyError. reflexivity.
Defined.

(** [X13] The quantity is converted before the product is looked up: a record
    with its three fields whose product is not a catalogue key is reported
    as "Product not found" only when [int()] accepts its quantity; when
    [int()] raises [ValueError] or [TypeError] the record is reported as
    an invalid record instead, and when it raises [OverflowError] the
    aggregation aborts although the product is unknown. *)
Theorem quantity_is_checked_before_product record s sale_id name q :
  subscript record "SALE_ID" = Ok sale_id ->
  subscript record "Product" = Ok name ->
  subscript record "Quantity" = Ok q ->
  contains (catalogue s) name = Ok false ->
  sales_record record s =
  match py_int q with
  | Ok _ => (with_message s (ProductNotFound name), Ok tt)
  | Raise OverflowError => (s, Raise OverflowError)
  | Raise _ => (with_message s (InvalidSalesRecord record), Ok tt)
  end.
Proof.
  intros Hid Hp Hq Hc. destruct s as [c t g o]. simpl in Hc.
  rewrite sales_record_run.
  unfold sale_overflows, sale_fields, sale_message.
  rewrite Hid, Hp, Hq, Hc.
  pose proof (contains_getitem c name) as Hg. rewrite Hc in Hg. rewrite Hg.
  destruct (py_int q) as [n|[]]; reflexivity.
Qed.

Lemma quantity_is_checked_before_product_witness :
  py_int (text "three") = Raise ValueError
  /\ sales_record unknown_with_text_quantity widget_store
     = (with_message widget_store
          (InvalidSalesRecord unknown_with_text_quantity), Ok tt).
Proof.
  split; [reflexivity|].
  apply (quantity_is_checked_before_product unknown_with_text_quantity
           widget_store (int 2) (text "Gadget") (text "three"));
    reflexivity.
Defined.

(** ** [write_results]: keys that cannot be ordered *)

Lemma has_kind_kind c k : has_kind c k = true <-> kind k = Some c.
Proof.
  unfold has_kind. destruct (kind k) as [c'|]; split; try discriminate.
  - intros H. apply Bool.eqb_prop in H. congruence.
  - intros H. inversion H. apply Bool.eqb_reflx.
Qed.

Lemma py_lt_same_kind a b c :
  kind a = Some c -> kind b = Some c -> exists r, py_lt a b = Ok r.
Proof.
  destruct a, b; simpl; intros Ha Hb; try congruence; eauto.
Qed.

Lemma py_lt_other_kind a b c :
  kind b = Some c -> has_kind c a = false -> py_lt a b = Raise TypeError.
Proof.
  unfold has_kind.
  destruct a, b; simpl; intros Hb Ha; inversion Hb; subst; simpl in Ha;
    try discriminate; reflexivity.
Qed.

Lemma py_lt_none a : py_lt a SNone = Raise TypeError.
Proof. destruct a; reflexivity. Qed.

Lemma insert_same_kind c x ys :
  kind x = Some c -> Forall (fun k => kind k = Some c) ys ->
  exists zs, insert x ys = Ok zs /\ zs <> []
             /\ Forall (fun k => kind k = Some c) zs
             /\ Permutation zs (x :: ys).
Proof.
  intros Hx Hys. induction Hys as [|y ys Hy Hys IH]; simpl.
  - exists [x]. repeat split; auto. discriminate.
  - destruct (py_lt_same_kind x y c Hx Hy) as [[|] Hr]; rewrite Hr.
    + exists (x :: y :: ys). repeat split; auto. discriminate.
    + destruct IH as (zs & Hi & _ & Hk & Hp). rewrite Hi.
      exists (y :: zs). repeat split; auto; try discriminate.
      rewrite Hp. apply perm_swap.
Qed.

Lemma sort_raised xs e :
  fold_left (fun acc x =>
               match acc with
               | Ok ys => insert x ys
               | Raise e => Raise e
               end) xs (Raise e) = Raise e.
Proof. induction xs as [|x xs IH]; simpl; auto. Qed.

Lemma sort_one_kind c xs : forall acc,
  acc <> [] -> Forall (fun k => kind k = Some c) acc ->
  if forallb (has_kind c) xs
  then exists ys,
         fold_left (fun acc x =>
                      match acc with
                      | Ok ys => insert x ys
                      | Raise e => Raise e
                      end) xs (Ok acc) = Ok ys
         /\ Permutation ys (acc ++ xs)
  else fold_left (fun acc x =>
                    match acc with
                    | Ok ys => insert x ys
                    | Raise e => Raise e
                    end) xs (Ok acc) = Raise TypeError.
Proof.
  induction xs as [|x xs IH]; intros acc Hne Hacc; simpl.
  - exists acc. now rewrite app_nil_r.
  - destruct (has_kind c x) eqn:Hx; simpl.
    + apply has_kind_kind in Hx.
      destruct (insert_same_kind c x acc Hx Hacc) as (zs & Hi & Hz & Hk & Hp).
      rewrite Hi. specialize (IH zs Hz Hk).
      destruct (forallb (has_kind c) xs); auto.
      destruct IH as (ys & Hf & Hp'). exists ys. split; auto.
      rewrite Hp', Hp. apply Permutation_cons_app. reflexivity.
    + destruct acc as [|y acc]; [congruence|].
      inversion Hacc as [|? ? Hy _]; subst. simpl.
      rewrite (py_lt_other_kind x y c Hy Hx). apply sort_raised.
Qed.

Lemma sorted_orderable ks :
  if orderable ks
  then exists ids, sorted ks = Ok ids /\ Permutation ids ks
  else sorted ks = Raise TypeError.
Proof.
  destruct ks as [|k [|k' rest]].
  - exists []. split; [reflexivity|constructor].
  - exists [k]. split; [reflexivity|auto].
  - unfold orderable. destruct (kind k) as [c|] eqn:Hk.
    + unfold sorted.
      change (fold_left _ (k :: k' :: rest) (Ok []))
        with (fold_left (fun acc x =>
                           match acc with
                           | Ok ys => insert x ys
                           | Raise e => Raise e
                           end) (k' :: rest) (Ok [k])).
      apply (sort_one_kind c (k' :: rest) [k]); [discriminate|auto].
    + unfold sorted. simpl.
      destruct k; try discriminate. rewrite py_lt_none. apply sort_raised.
Qed.

Lemma write_results_orderable repr_float d g t o :
  orderable (keys d) = true ->
  exists ids,
    Permutation ids (keys d)
    /\ write_results repr_float d g t o
       = (Output
            (header
               :: map (fun k => report_line repr_float k (subtotal d k)) ids
               ++ [footer g t])
            (console o
               ++ header
               :: map (fun k =>
                         strip (report_line repr_float k (subtotal d k)))
                    ids
               ++ [footer g t]),
          Ok tt).
Proof.
  intros H. pose proof (sorted_orderable (keys d)) as Hs.
  rewrite H in Hs. destruct Hs as (ids & Hsorted & Hp).
  exists ids. split; auto.
  unfold write_results.
  rewrite (bind_ok _ _ _ _ tt
             (eq_refl : open_file o = (Output [] (console o), Ok tt))).
  rewrite (bind_ok _ _ _ _ tt (eq_refl : print_text header _ = (_, Ok tt))).
  rewrite (bind_ok _ _ _ _ tt (eq_refl : write header _ = (_, Ok tt))).
  rewrite (bind_ok (eval (sorted (keys d))) _ _ _ ids
             (f_equal (pair _) Hsorted)).
  rewrite (bind_ok _ _ _ _ tt (report_loop repr_float d ids
             (fun k Hk => Permutation_in k Hp Hk) _)).
  simpl. unfold bind, print_text, write, modify. simpl.
  now rewrite <- !app_assoc.
Qed.

Lemma write_results_unorderable repr_float d g t o :
  orderable (keys d) = false ->
  write_results repr_float d g t o
  = (Output [header] (console o ++ [header]), Raise TypeError).
Proof.
  intros H. pose proof (sorted_orderable (keys d)) as Hs.
  rewrite H in Hs.
  unfold write_results.
  rewrite (bind_ok _ _ _ _ tt
             (eq_refl : open_file o = (Output [] (console o), Ok tt))).
  rewrite (bind_ok _ _ _ _ tt (eq_refl : print_text header _ = (_, Ok tt))).
  rewrite (bind_ok _ _ _ _ tt (eq_refl : write header _ = (_, Ok tt))).
  unfold bind, eval. rewrite Hs. reflexivity.
Qed.

(** [X14] When the per-sale mapping has two keys or more that are not all text
    or all numbers (a text and a number together, or [None] beside any
    other key), [sorted] raises [TypeError]: [write_results] raises after
    the header went to the file and to the console, with no line and no
    footer; what the file held before is lost. *)
Theorem unorderable_identifiers_abort_the_report repr_float d g t o :
  orderable (keys d) = false ->
  write_results repr_float d g t o
  = (Output [header] (console o ++ [header]), Raise TypeError).
Proof. apply write_results_unorderable. Qed.

Lemma unorderable_identifiers_abort_the_report_witness :
  write_results repr_one_decimal mixed_totals (Float.of_Z 15)
    (Float.of_Q (1 # 8)) (Output ["yesterday"] [])
  = (Output [header] (console (Output ["yesterday"] []) ++ [header]),
     Raise TypeError).
Proof.
  apply (unorderable_identifiers_abort_the_report repr_one_decimal
           mixed_totals).
  reflexivity.
Defined.

(** [X15] [write_results] returns exactly when the keys can be ordered
    (fewer than two, or all text, or all numbers); the file then holds,
    whatever it held before, the header, one written piece for each key
    of the mapping and no other, and the footer; a piece is [Sale ID],
    the identifier, [: $], the subtotal with two decimals and a line
    break (an identifier that contains a line break spreads its piece
    over several lines).  The console received the same pieces, those of
    the identifiers stripped of the blanks at both ends. *)
Theorem report_is_written_iff_orderable repr_float d g t o :
  (snd (write_results repr_float d g t o) = Ok tt
   <-> orderable (keys d) = true)
  /\ (orderable (keys d) = true ->
      exists ids,
        Permutation ids (keys d)
        /\ write_results repr_float d g t o
           = (Output
                (header
                   :: map (fun k => report_line repr_float k (subtotal d k)) ids
                   ++ [footer g t])
                (console o
                   ++ header
                   :: map (fun k =>
                             strip (report_line repr_float k (subtotal d k)))
                        ids
                   ++ [footer g t]),
              Ok tt)).
Proof.
  split; [|apply write_results_orderable]. split.
  - intros H. destruct (orderable (keys d)) eqn:E; auto.
    rewrite (write_results_unorderable repr_float d g t o E) in H.
    discriminate.
  - intros H.
    destruct (write_results_orderable repr_float d g t o H) as (ids & _ & E).
    now rewrite E.
Qed.

Lemma report_is_written_iff_orderable_witness :
  write_results repr_one_decimal number_totals 2.805%float 0.125%float
    (Output ["yesterday"] [])
  = (Output
       [header_text; ("Sale ID True: $0.12" ++ nl)%string;
        ("Sale ID 1.5: $0.01" ++ nl)%string;
        ("Sale ID 10: $2.67" ++ nl)%string; footer_text "2.81"]
       [header_text; "Sale ID True: $0.12"; "Sale ID 1.5: $0.01";
        "Sale ID 10: $2.67"; footer_text "2.81"],
     Ok tt)
  /\ exists ids,
       Permutation ids (keys number_totals)
       /\ write_results repr_one_decimal number_totals 2.805%float
            0.125%float (Output ["yesterday"] [])
          = (Output
               (header
                  :: map (fun k => report_line repr_one_decimal k
                                     (subtotal number_totals k)) ids
                  ++ [footer 2.805%float 0.125%float])
               (console (Output ["yesterday"] [])
                  ++ header
                  :: map (fun k => strip (report_line repr_one_decimal k
                                            (subtotal number_totals k))) ids
                  ++ [footer 2.805%float 0.125%float]),
             Ok tt).
Proof.
  split; [reflexivity|].
  apply (report_is_written_iff_orderable repr_one_decimal number_totals
           2.805%float 0.125%float (Output ["yesterday"] [])).
  reflexivity.
Defined.

(** [X20] For a per-sale mapping with pairwise different keys that are all
    text, or all numbers other than [nan], or with one key at most, the
    pieces that [write_results] writes between the header and the footer
    stand in ascending order of identifier (text by code points, numbers
    by value), one piece for each key. *)
Theorem report_is_sorted_by_identifier repr_float d g t o :
  distinct_keys d = true ->
  forallb is_text (keys d) = true \/ forallb is_number (keys d) = true
  \/ (List.length (keys d) <= 1)%nat ->
  exists ids,
    Permutation ids (keys d)
    /\ StronglySorted ascending ids
    /\ write_results repr_float d g t o
       = (Output
            (header
               :: map (fun k => report_line repr_float k (subtotal d k)) ids
               ++ [footer g t])
            (console o
               ++ header
               :: map (fun k => strip (report_line repr_float k (subtotal d k)))
                    ids
               ++ [footer g t]),
          Ok tt).
Proof.
  intros Hd Hkind.
  assert (Hs : exists ids, sorted (keys d) = Ok ids
                           /\ Permutation ids (keys d)
                           /\ StronglySorted ascending ids).
  { destruct Hkind as [H|[H|H]].
    - apply sorted_text; [|now apply distinct_keys_Distinct].
      apply Forall_forall. now apply forallb_forall.
    - apply sorted_numbers; [|now apply distinct_keys_Distinct].
      apply Forall_forall. now apply forallb_forall.
    - destruct (sorted_short (keys d) H) as [E S].
      exists (keys d). auto. }
  destruct Hs as (ids & Hsorted & Hp & Hso).
  exists ids. repeat split; auto.
  unfold write_results.
  rewrite (bind_ok _ _ _ _ tt (eq_refl : open_file o = (Output [] (console o), Ok tt))).
  rewrite (bind_ok _ _ _ _ tt (eq_refl : print_text header _ = (_, Ok tt))).
  rewrite (bind_ok _ _ _ _ tt (eq_refl : write header _ = (_, Ok tt))).
  rewrite (bind_ok (eval (sorted (keys d))) _ _ _ ids
             (f_equal (pair _) Hsorted)).
  rewrite (bind_ok _ _ _ _ tt (report_loop repr_float d ids
             (fun k Hk => Permutation_in k Hp Hk) _)).
  simpl. unfold bind, print_text, write, modify. simpl.
  now rewrite <- !app_assoc.
Qed.

Lemma report_is_sorted_by_identifier_witness :
  sorted (keys number_totals) = Ok [SBool true; SFloat 1.5%float; SInt 10]
  /\ file (fst (write_results repr_one_decimal number_totals 2.805%float
                  0.125%float (Output [] [])))
     = [header_text; ("Sale ID True: $0.12" ++ nl)%string;
        ("Sale ID 1.5: $0.01" ++ nl)%string;
        ("Sale ID 10: $2.67" ++ nl)%string; footer_text "2.81"]
  /\ exists ids,
       Permutation ids (keys number_totals)
       /\ StronglySorted ascending ids
       /\ write_results repr_one_decimal number_totals 2.805%float
            0.125%float (Output [] [])
          = (Output
               (header
                  :: map (fun k => report_line repr_one_decimal k
                                     (subtotal number_totals k)) ids
                  ++ [footer 2.805%float 0.125%float])
               (console (Output [] [])
                  ++ header
                  :: map (fun k => strip (report_line repr_one_decimal k
                                            (subtotal number_totals k))) ids
                  ++ [footer 2.805%float 0.125%float]),
             Ok tt).
Proof.
  split; [reflexivity|split; [reflexivity|]].
  apply (report_is_sorted_by_identifier repr_one_decimal number_totals
           2.805%float 0.125%float (Output [] [])).
  - reflexivity.
  - right; left. reflexivity.
Defined.

(** ** [load_json_file] and [main] *)

Lemma load_json_file_run (files : string -> source) file_path ns :
  load_json_file files file_path ns =
  (ns ++ notice_of files file_path,
   match failure (files file_path) with
   | Some e => Raise e
   | None => Ok (loaded (files file_path))
   end).
Proof.
  unfold load_json_file, notice_of.
  destruct (files file_path); run_stmt; try reflexivity;
    now rewrite app_nil_r.
Qed.

Lemma is_none_loaded (src : source) :
  failure src = None -> is_none (loaded src) = unusable src.
Proof. destruct src; try reflexivity. discriminate. Qed.

Lemma main_loads (files : string -> source) elapsed_time repr_float script
    product_file sales_file p :
  main files elapsed_time repr_float [script; product_file; sales_file] p =
  match failure (files product_file) with
  | Some e =>
      (Process (notices p ++ notice_of files product_file) (memory p)
         (report p), Uncaught e)
  | None =>
      match failure (files sales_file) with
      | Some e =>
          (Process (notices p ++ notice_of files product_file
                    ++ notice_of files sales_file) (memory p) (report p),
           Uncaught e)
      | None =>
          let ns := notices p ++ notice_of files product_file
                    ++ notice_of files sales_file in
          if unusable (files product_file) || unusable (files sales_file)
          then (Process ns (memory p) (report p), Exited 1)
          else
            match build_price_catalogue_on (loaded (files product_file))
                    (memory p) with
            | (m, Raise e) => (Process ns m (report p), Uncaught e)
            | (m, Ok catalogue) =>
                match compute_sales_total_on (loaded (files sales_file))
                        catalogue m with
                | (m', Raise e) => (Process ns m' (report p), Uncaught e)
                | (m', Ok (sale_totals, grand_total)) =>
                    match write_results repr_float sale_totals grand_total
                            elapsed_time (report p) with
                    | (o, Raise e) => (Process ns m' o, Uncaught e)
                    | (o, Ok _) => (Process ns m' o, Returned)
                    end
                end
            end
      end
  end.
Proof.
  unfold main, bind. rewrite load_json_file_run.
  destruct (failure (files product_file)) as [e|] eqn:F1; [reflexivity|].
  rewrite load_json_file_run, <- app_assoc.
  destruct (failure (files sales_file)) as [e|] eqn:F2; [reflexivity|].
  unfold ret. now rewrite !is_none_loaded.
Qed.

(** [X16] [main] calls [sys.exit], with status 1, exactly when it was not
    given two arguments, or when both sources were loaded without an
    exception and one of them is absent, is not JSON, or holds the JSON
    value [null]; it then leaves the store and the results file as they
    were, and it never exits with another status.  An exception that
    [load_json_file] does not catch (a file that cannot be read, bytes
    that are not UTF-8), raised for the first source or else for the
    second, leaves [main] uncaught, with nothing aggregated or written. *)
Theorem main_exits_without_a_report (files : string -> source) elapsed_time
    repr_float argv p :
  (snd (main files elapsed_time repr_float argv p) = Exited 1
   <-> (List.length argv <> 3%nat
        \/ exists script product_file sales_file,
             argv = [script; product_file; sales_file]
             /\ failure (files product_file) = None
             /\ failure (files sales_file) = None
             /\ (unusable (files product_file) = true
                 \/ unusable (files sales_file) = true)))
  /\ (forall code,
        snd (main files elapsed_time repr_float argv p) = Exited code ->
        code = 1
        /\ memory (fst (main files elapsed_time repr_float argv p)) = memory p
        /\ report (fst (main files elapsed_time repr_float argv p)) = report p)
  /\ (forall script product_file sales_file e,
        argv = [script; product_file; sales_file] ->
        failure (files product_file) = Some e
        \/ (failure (files product_file) = None
            /\ failure (files sales_file) = Some e) ->
        snd (main files elapsed_time repr_float argv p) = Uncaught e
        /\ memory (fst (main files elapsed_time repr_float argv p)) = memory p
        /\ report (fst (main files elapsed_time repr_float argv p))
           = report p).
Proof.
  destruct argv as [|a [|b [|c [|d argv]]]];
    try (split; [split; [intros _; left; simpl; lia|reflexivity]
                |split; [intros code H; inversion H; auto
                        |intros x y z e H; discriminate]]).
  rewrite main_loads. cbv zeta.
  assert (Hargs : (List.length [a; b; c] <> 3%nat
                   \/ exists x y z : string,
                        [a; b; c] = [x; y; z]
                        /\ failure (files y) = None
                        /\ failure (files z) = None
                        /\ (unusable (files y) = true
                            \/ unusable (files z) = true))
                  -> failure (files b) = None /\ failure (files c) = None
                     /\ (unusable (files b) = true
                         \/ unusable (files c) = true)).
  { intros [H|(x & y & z & H & H')]; [simpl in H; lia|].
    inversion H; subst. exact H'. }
  destruct (failure (files b)) as [e1|] eqn:F1.
  { split; [split; [discriminate|]|split; [discriminate|]].
    - intros H. apply Hargs in H as (H & _). discriminate.
    - intros x y z e H [H'|[H' _]]; inversion H; subst;
        rewrite F1 in H'; inversion H'; auto. }
  destruct (failure (files c)) as [e2|] eqn:F2.
  { split; [split; [discriminate|]|split; [discriminate|]].
    - intros H. apply Hargs in H as (_ & H & _). discriminate.
    - intros x y z e H [H'|[_ H']]; inversion H; subst.
      + rewrite F1 in H'. discriminate.
      + rewrite F2 in H'. inversion H'. auto. }
  assert (Hfail : forall x y z e, [a; b; c] = [x; y; z] ->
             failure (files y) = Some e
             \/ (failure (files y) = None /\ failure (files z) = Some e) ->
             False).
  { intros x y z e H [H'|[_ H']]; inversion H; subst; congruence. }
  destruct (unusable (files b) || unusable (files c)) eqn:E.
  - split; [split; auto|split; [intros code H; inversion H; auto|]].
    + intros _. right. exists a, b, c. repeat split; auto.
      now apply orb_true_iff in E.
    + intros x y z e H H'. elim (Hfail x y z e H H').
  - assert (Hno : ~ (List.length [a; b; c] <> 3%nat
                     \/ exists x y z : string,
                          [a; b; c] = [x; y; z]
                          /\ failure (files y) = None
                          /\ failure (files z) = None
                          /\ (unusable (files y) = true
                              \/ unusable (files z) = true))).
    { intros H. apply Hargs in H as (_ & _ & H).
      apply orb_true_iff in H. congruence. }
    destruct (build_price_catalogue_on _ _) as [m [cat|e]];
      [destruct (compute_sales_total_on _ _ _) as [m' [[totals g]|e]];
       [destruct (write_results _ _ _ _ _) as [o [u|e]]|]|];
      simpl;
      (split; [split; [discriminate|intros H; elim (Hno H)]
              |split; [discriminate
                      |intros x y z e' H H'; elim (Hfail x y z e' H H')]]).
Qed.

(** [X17] With two arguments, [main] loads the first source and then,
    unless that raised, the second, before it decides anything: the
    notices printed are those of the first path followed by those of the
    second, so that two sources that are absent or not JSON give two
    messages; a source that holds [null], or that raises, gives none. *)
Theorem sources_are_loaded_in_turn (files : string -> source) elapsed_time
    repr_float script product_file sales_file p :
  notices (fst (main files elapsed_time repr_float
                  [script; product_file; sales_file] p))
  = notices p ++ notice_of files product_file
    ++ match failure (files product_file) with
       | Some _ => []
       | None => notice_of files sales_file
       end.
Proof.
  rewrite main_loads. cbv zeta.
  destruct (failure (files product_file)) as [e1|];
    [now rewrite app_nil_r|].
  destruct (failure (files sales_file)) as [e2|]; [reflexivity|].
  destruct (unusable (files product_file) || unusable (files sales_file));
    [reflexivity|].
  destruct (build_price_catalogue_on _ _) as [m [cat|e]]; [|reflexivity].
  destruct (compute_sales_total_on _ _ _) as [m' [[totals g]|e]];
    [|reflexivity].
  destruct (write_results _ _ _ _ _) as [o [u|e]]; reflexivity.
Qed.

Lemma build_price_catalogue_on_list products s :
  build_price_catalogue_on (VList products) s = build_price_catalogue products s.
Proof.
  unfold build_price_catalogue_on. run_stmt.
  now rewrite !build_price_catalogue_run.
Qed.

Lemma compute_sales_total_on_list sales cat s :
  compute_sales_total_on (VList sales) cat s = compute_sales_total sales cat s.
Proof.
  unfold compute_sales_total_on. run_stmt.
  now rewrite !compute_sales_total_run.
Qed.

(** [X18] When both sources decode to lists, no record overflows and the
    identifiers can be ordered, [main] returns and the three functions
    compose: the catalogue is the valid product entries written in order,
    the totals are the costs of the valid sales accumulated against that
    catalogue, the messages of the products come before those of the
    sales, and the results file holds the header, one written piece for
    each identifier with its subtotal, and the footer with the grand
    total. *)
Theorem main_reports_the_aggregation (files : string -> source) elapsed_time
    repr_float script product_file sales_file p products sales :
  files product_file = Decoded (VList products) ->
  files sales_file = Decoded (VList sales) ->
  existsb product_overflows products = false ->
  let cat := write_all [] (valid_entries products) in
  existsb (sale_overflows cat) sales = false ->
  let acc := accumulate ([], Float.zero) (sale_entries cat sales) in
  orderable (keys (fst acc)) = true ->
  exists ids,
    Permutation ids (keys (fst acc))
    /\ main files elapsed_time repr_float [script; product_file; sales_file] p
       = (Process
            (notices p)
            (Store cat (fst acc) (snd acc)
               (stdout (memory p) ++ product_messages products
                ++ sale_messages cat sales))
            (Output
               (header
                  :: map (fun k => report_line repr_float k
                                     (subtotal (fst acc) k)) ids
                  ++ [footer (snd acc) elapsed_time])
               (console (report p)
                  ++ header
                  :: map (fun k => strip (report_line repr_float k
                                            (subtotal (fst acc) k))) ids
                  ++ [footer (snd acc) elapsed_time])),
          Returned).
Proof.
  intros Hp Hs Ep cat Es acc Ho.
  destruct (write_results_orderable repr_float (fst acc) (snd acc)
              elapsed_time (report p) Ho) as (ids & Hperm & Hw).
  exists ids. split; auto.
  rewrite main_loads. unfold notice_of. rewrite Hp, Hs. cbv zeta. simpl.
  rewrite build_price_catalogue_on_list, build_price_catalogue_run. simpl.
  rewrite Ep, (before_all _ _ Ep).
  rewrite compute_sales_total_on_list.
  fold cat. rewrite (compute_sales_total_safe sales cat _ Es). simpl.
  fold acc. rewrite (surjective_pairing acc). simpl.
  rewrite Hw, !app_nil_r, <- app_assoc. reflexivity.
Qed.

Lemma main_reports_the_aggregation_witness :
  main precise_files 0.125%float repr_one_decimal
    ["computeSales.py"; "prices.json"; "orders.json"] idle
  = (Process []
       (Store [(SStr "Bolt", 2.675%float); (SStr "Nut", 0.005%float)]
          [(SStr "S2", 2.675%float); (SStr "S1", 0.005%float)]
          2.6799999999999997%float
          [InvalidProductEntry (product (text "Bolt") (VList []));
           ProductNotFound (text "Washer")])
       (Output
          [header_text; ("Sale ID S1: $0.01" ++ nl)%string;
           ("Sale ID S2: $2.67" ++ nl)%string; footer_text "2.68"]
          [header_text; "Sale ID S1: $0.01"; "Sale ID S2: $2.67";
           footer_text "2.68"]),
     Returned)
  /\ exists ids,
       Permutation ids [SStr "S2"; SStr "S1"]
       /\ main precise_files 0.125%float repr_one_decimal
            ["computeSales.py"; "prices.json"; "orders.json"] idle
          = (Process
               (notices idle)
               (Store (write_all [] (valid_entries precise_products))
                  [(SStr "S2", 2.675%float); (SStr "S1", 0.005%float)]
                  2.6799999999999997%float
                  (stdout (memory idle) ++ product_messages precise_products
                   ++ sale_messages
                        (write_all [] (valid_entries precise_products))
                        precise_sales))
               (Output
                  (header
                     :: map (fun k =>
                               report_line repr_one_decimal k
                                 (subtotal [(SStr "S2", 2.675%float);
                                            (SStr "S1", 0.005%float)] k)) ids
                     ++ [footer 2.6799999999999997%float 0.125%float])
                  (console (report idle)
                     ++ header
                     :: map (fun k =>
                               strip
                                 (report_line repr_one_decimal k
                                    (subtotal [(SStr "S2", 2.675%float);
                                               (SStr "S1", 0.005%float)] k)))
                          ids
                     ++ [footer 2.6799999999999997%float 0.125%float])),
             Returned).
Proof.
  split; [reflexivity|].
  apply (main_reports_the_aggregation precise_files 0.125%float
           repr_one_decimal "computeSales.py" "prices.json" "orders.json"
           idle precise_products precise_sales); reflexivity.
Defined.

Lemma products_that_are_not_objects items : forall s,
  Forall (fun v => is_object v = false) items ->
  for_each items product_entry s
  = (Store (catalogue s) (sale_totals s) (grand_total s)
       (stdout s ++ map InvalidProductEntry items), Ok tt).
Proof.
  induction items as [|v items IH]; intros s H; simpl.
  - rewrite app_nil_r. now destruct s.
  - inversion H as [|? ? Hv Hrest]; subst.
    unfold bind. rewrite product_entry_run.
    assert (E : subscript v "title" = Raise TypeError)
      by (destruct v; try discriminate; reflexivity).
    unfold product_overflows, product_fields. rewrite E.
    rewrite (IH _ Hrest). simpl. now rewrite <- app_assoc.
Qed.

Lemma sales_that_are_not_objects items : forall s,
  Forall (fun v => is_object v = false) items ->
  for_each items sales_record s
  = (Store (catalogue s) (sale_totals s) (grand_total s)
       (stdout s ++ map InvalidSalesRecord items), Ok tt).
Proof.
  induction items as [|v items IH]; intros s H; simpl.
  - rewrite app_nil_r. now destruct s.
  - inversion H as [|? ? Hv Hrest]; subst.
    unfold bind. destruct s as [c t g o]. rewrite sales_record_run.
    assert (E : subscript v "SALE_ID" = Raise TypeError)
      by (destruct v; try discriminate; reflexivity).
    unfold sale_overflows, sale_fields, sale_message. rewrite E.
    rewrite (IH _ Hrest). simpl. now rewrite <- app_assoc.
Qed.

Lemma py_iter_not_list v items :
  is_list v = false -> py_iter v = Ok items ->
  Forall (fun x => is_object x = false) items.
Proof.
  destruct v as [[| | | |t]|l|fields]; simpl; try discriminate;
    intros _ H; inversion H; subst; apply Forall_forall; intros x Hx;
    apply in_map_iff in Hx as (y & <- & _); reflexivity.
Qed.

(** [X19] A source that decodes to something else than a list: an object is
    iterated over its keys and a text over its characters, none of which
    is a record, so that every one is reported as invalid, the catalogue
    or the per-sale mapping is empty and the grand total is 0.0; a number
    or a boolean cannot be iterated, and the [TypeError] is raised outside
    of any [try]. *)
Theorem sources_that_are_not_lists v cat s :
  is_list v = false ->
  match py_iter v with
  | Ok items =>
      build_price_catalogue_on v s
      = (Store [] (sale_totals s) (grand_total s)
           (stdout s ++ map InvalidProductEntry items), Ok [])
      /\ compute_sales_total_on v cat s
         = (Store cat [] Float.zero
              (stdout s ++ map InvalidSalesRecord items),
            Ok ([], Float.zero))
  | Raise e =>
      e = TypeError
      /\ build_price_catalogue_on v s
         = (Store [] (sale_totals s) (grand_total s) (stdout s),
            Raise TypeError)
      /\ compute_sales_total_on v cat s
         = (Store cat [] Float.zero (stdout s), Raise TypeError)
  end.
Proof.
  intros Hl. destruct (py_iter v) as [items|e] eqn:E.
  - pose proof (py_iter_not_list v items Hl E) as Hitems. split.
    + unfold build_price_catalogue_on, build_price_catalogue. run_stmt.
      rewrite E, (products_that_are_not_objects items _ Hitems). reflexivity.
    + unfold compute_sales_total_on, compute_sales_total. run_stmt.
      rewrite E, (sales_that_are_not_objects items _ Hitems). reflexivity.
  - assert (He : e = TypeError).
    { destruct v as [[| | | |t]|l|fields]; simpl in E; congruence. }
    subst e. repeat split.
    + unfold build_price_catalogue_on. run_stmt. now rewrite E.
    + unfold compute_sales_total_on. run_stmt. now rewrite E.
Qed.

Lemma sources_that_are_not_lists_witness :
  build_price_catalogue_on (product (text "Widget") (text "2.50")) fresh
  = (Store [] (sale_totals fresh) (grand_total fresh)
       (stdout fresh
        ++ map InvalidProductEntry [text "title"; text "price"]), Ok []).
Proof.
  apply (sources_that_are_not_lists (product (text "Widget") (text "2.50"))
           [] fresh eq_refl).
Defined.

(** ** Instances of the equivalences *)

Lemma aggregation_returns_iff_no_overflow_witness :
  sale_overflows widget_catalogue
    (sale (int 1) (text "Widget") (text (repeat_string "9" 4301))) = false
  /\ sale_overflows widget_catalogue
       (sale (int 1) (text "Gadget") (text (repeat_string "9" 400))) = false
  /\ snd (compute_sales_total
            [sale_of_gadget;
             sale (int 1) (text "Widget") (text (repeat_string "9" 400))]
            widget_catalogue fresh)
     = Raise OverflowError.
Proof.
  split; [vm_compute; reflexivity|split; [vm_compute; reflexivity|]].
  apply (proj2 (proj2 (aggregation_returns_iff_no_overflow
                         [sale_of_gadget;
                          sale (int 1) (text "Widget")
                            (text (repeat_string "9" 400))]
                         widget_catalogue fresh))).
  exists (sale (int 1) (text "Widget") (text (repeat_string "9" 400))).
  split; [right; now left|vm_compute; reflexivity].
Defined.

Lemma catalogue_is_built_iff_no_overflow_witness :
  snd (build_price_catalogue overpriced_products fresh) = Raise OverflowError.
Proof.
  apply (proj2 (proj2 (catalogue_is_built_iff_no_overflow
                         overpriced_products fresh))).
  exists (product (text "Widget") (int (10 ^ 400))).
  split; [do 3 right; now left|reflexivity].
Defined.

Lemma main_exits_without_a_report_witness :
  snd (main sample_files 0.125%float repr_one_decimal
         ["computeSales.py"; "products.json"; "null.json"] idle)
  = Exited 1
  /\ snd (main sample_files 0.125%float repr_one_decimal
            ["computeSales.py"; "missing.json"; "latin1.json"] idle)
     = Uncaught ValueError
  /\ memory (fst (main sample_files 0.125%float repr_one_decimal
                    ["computeSales.py"; "missing.json"; "latin1.json"] idle))
     = fresh
  /\ report (fst (main sample_files 0.125%float repr_one_decimal
                    ["computeSales.py"; "missing.json"; "latin1.json"] idle))
     = Output ["yesterday"] [].
Proof.
  split.
  - apply (proj2 (proj1 (main_exits_without_a_report sample_files
                           0.125%float repr_one_decimal
                           ["computeSales.py"; "products.json"; "null.json"]
                           idle))).
    right. exists "computeSales.py", "products.json", "null.json".
    repeat split. right; reflexivity.
  - exact (proj2 (proj2 (main_exits_without_a_report sample_files
                           0.125%float repr_one_decimal
                           ["computeSales.py"; "missing.json"; "latin1.json"]
                           idle))
             "computeSales.py" "missing.json" "latin1.json" ValueError
             eq_refl (or_intror (conj eq_refl eq_refl))).
Defined.
